(** * evalml pipelines: a shallow embedding of [PipelineBase] and its subclasses

    The development follows the three source files
    - [evalml/pipelines/pipeline_base.py] (module [PipelineBase]),
    - [evalml/pipelines/multiclass_classification_pipeline.py]
      (module [MulticlassClassificationPipeline]),
    - [evalml/pipelines/classification/random_forest.py]
      (module [RFClassificationPipeline]).

    Python exceptions are values of [exn]; a call that may raise returns a
    [Result].  Methods that read or mutate [self] live in the monad [M], a
    state monad over [World] (the pipeline object, the record of calls made
    to collaborators, and the logging sink) layered over [Result]: as in
    Python, an exception does not roll back the mutations made before it. *)

From Stdlib Require Import ZArith QArith Qabs String List Bool Lia Sorted Permutation.
From stdpp Require Import base option list strings gmap pretty.

Local Open Scope string_scope.
Local Open Scope list_scope.

(** ** Exceptions *)

(** The built-in exception classes the code raises or catches, and classes
    derived from them ([Derived name base] is [class name(base)]). *)
Inductive exn_class :=
| ValueError
| TypeError
| KeyError
| IndexError
| AttributeError
| NotImplementedError
| Derived (name : string) (base : exn_class).

#[global] Instance exn_class_eq_dec : EqDecision exn_class.
Proof. solve_decision. Defined.

(** [issubclass c target], as used by an [except target] clause. *)
Fixpoint issubclass (c target : exn_class) : bool :=
  if decide (c = target) then true
  else match c with
       | Derived _ base => issubclass base target
       | _ => false
       end.

(** An exception object: its class and its message; [ExnFrom c m e] is
    the exception built by [raise c(m) from e], whose [__cause__] is [e]. *)
Inductive exn :=
| Exn (cls : exn_class) (msg : string)
| ExnFrom (cls : exn_class) (msg : string) (cause : exn).

Definition exn_cls (e : exn) : exn_class :=
  match e with Exn c _ | ExnFrom c _ _ => c end.
Definition exn_msg (e : exn) : string :=
  match e with Exn _ m | ExnFrom _ m _ => m end.
Definition exn_cause (e : exn) : option exn :=
  match e with Exn _ _ => None | ExnFrom _ _ c => Some c end.

Inductive Result (A : Type) :=
| Ok (a : A)
| Raise (e : exn).
Arguments Ok {A} a.
Arguments Raise {A} e.

#[global] Instance Result_ret : MRet Result := @Ok.
#[global] Instance Result_bind : MBind Result :=
  fun A B f m => match m with Ok a => f a | Raise e => Raise e end.

(** ** Data handled by a pipeline *)

(** Column labels of a frame: strings, or integers for frames built from
    arrays. *)
Inductive label :=
| LInt (z : Z)
| LStr (s : string).

(** The array-likes that flow through a pipeline ([X], [y], predictions,
    probability estimates).  The pipeline never inspects a cell. *)
Inductive data :=
| DataFrame (columns : list label) (rows : list (list Q))
| Series (values : list Q)
| NdArray (rows : list (list Q)).

(** A feature importance as an estimator reports it.  The pipeline
    applies [abs], unary minus and [<] to these numbers, and what the three
    do depends on the kind of number:
    - [Num q]: a number on which they are exact, with value [q] (a Python
      [int], a finite [float], a numpy floating or signed scalar within its
      range);
    - [Inf negative]: a float infinity;
    - [UInt w n]: a numpy unsigned integer of [w] bits with value [n]; it
      is its own [abs], and its negation wraps around to [2^w - n] (to 0
      for 0).
    The float NaN is left out: [<] is false in both directions with a NaN,
    and the order in which [list.sort] leaves such a list is not fixed by
    the language. *)
Inductive number :=
| Num (q : Q)
| Inf (negative : bool)
| UInt (w : N) (n : Z).

Definition num_abs (x : number) : number :=
  match x with
  | Num q => Num (Qabs q)
  | Inf _ => Inf false
  | UInt w n => UInt w n
  end.

Definition num_neg (x : number) : number :=
  match x with
  | Num q => Num (- q)
  | Inf negative => Inf (negb negative)
  | UInt w n => UInt w ((- n) mod 2 ^ Z.of_N w)
  end.

(** [p < q] on rationals. *)
Definition Qlt_bool (p q : Q) : bool := negb (Qle_bool q p).

(** [x < y]: numbers compare by value. *)
Definition num_lt (x y : number) : bool :=
  match x, y with
  | Inf nx, Inf ny => nx && negb ny
  | Inf nx, _ => nx
  | _, Inf ny => negb ny
  | Num p, Num q => Qlt_bool p q
  | Num p, UInt _ n => Qlt_bool p (inject_Z n)
  | UInt _ m, Num q => Qlt_bool (inject_Z m) q
  | UInt _ m, UInt _ n => (m <? n)%Z
  end.

(** Keyword-argument values of component constructors. *)
Inductive pyval :=
| PNone
| PBool (b : bool)
| PInt (z : Z)
| PFloat (q : Q)
| PStr (s : string).

(** [ProblemTypes] of [evalml.problem_types]. *)
Inductive ProblemTypes :=
| BINARY
| MULTICLASS
| REGRESSION.

#[global] Instance ProblemTypes_eq_dec : EqDecision ProblemTypes.
Proof. solve_decision. Defined.

(** A declared problem type: a string or a [ProblemTypes] member. *)
Inductive problem_type_ref :=
| PTName (s : string)
| PTEnum (t : ProblemTypes).

(** ** Components *)

(** The attributes of a component instance (hyper-parameters, learned
    state). *)
Definition cstate := list pyval.

(** A component class: what the pipeline uses of a subclass of
    [ComponentBase].  [cc_init kw] is the constructor call of the class with keyword
    arguments [kw],
    giving the [name] and the attributes of the new instance.  The fitting
    methods mutate the instance and so return its new attributes (also when
    they raise); [transform], [predict] and [predict_proba] only read it. *)
Record ComponentClass := {
  cc_Estimator : bool;
  cc_init : gmap string pyval -> Result (string * cstate);
  cc_fit_transform : cstate -> data -> data -> Result data * cstate;
  cc_transform : cstate -> data -> Result data;
  cc_fit : cstate -> data -> data -> Result unit * cstate;
  cc_predict : cstate -> data -> Result data;
  cc_predict_proba : cstate -> data -> Result data;
  cc_feature_importances : cstate -> Result (list number);
  cc_describe : cstate -> list string;
  cc_problem_types : list ProblemTypes;
  cc_model_type : string
}.

(** A component instance. *)
Record Component := {
  component_class : ComponentClass;
  name : string;
  attrs : cstate
}.

(** [isinstance(c, Estimator)]. *)
Definition isinstance_Estimator (c : Component) : bool :=
  cc_Estimator (component_class c).

(** An entry of a [component_graph] class variable: a component name or a
    live component. *)
Inductive component_ref :=
| CName (s : string)
| CObject (c : Component).

(** ** Objectives *)

(** What [score] consumes of an objective.  [o_score args kw] is the call of
    [objective.score] with positional arguments [args] and keyword
    arguments [kw]. *)
Record Objective := {
  o_name : string;
  score_needs_proba : bool;
  uses_extra_columns : bool;
  o_score : list data -> list (string * data) -> Result Q
}.

Inductive objective_ref :=
| OName (s : string)
| OObject (o : Objective).

(** ** Collaborators outside the three source files

    The registry and the helper functions the pipeline imports
    ([handle_component], [handle_problem_types], [get_objective]), the
    pandas constructors, and the string renderings used in messages. *)
Record Externals := {
  handle_component : component_ref -> Result Component;
  handle_problem_types : problem_type_ref -> Result ProblemTypes;
  get_objective : objective_ref -> Result Objective;
  pd_DataFrame : data -> Result (list label * list (list Q));
  pd_Series : data -> Result (list Q);
  format_kwargs : gmap string pyval -> string;
  format_problem_type : ProblemTypes -> string;
  format_problem_types : list ProblemTypes -> string
}.

(** ** The pipeline object and the monad of its methods *)

(** The instance attributes set by [PipelineBase.__init__].  [self.estimator]
    is not a field: it is the same object as the last element of
    [component_graph], and is read from there (see [estimator]). *)
Record Pipeline := {
  component_graph : list Component;
  problem_types : list ProblemTypes;
  input_feature_names : gmap string (list label);
  results : gmap string Q;
  parameters : gmap string (gmap string pyval);
  pipeline_name : string
}.

(** [self.estimator]: the last component of the graph. *)
Definition estimator (p : Pipeline) : option Component :=
  last (component_graph p).

(** Calls recorded while a method runs: the pipeline's own [predict] and
    [predict_proba], and each objective's [score] with its positional and
    keyword arguments. *)
Inductive call :=
| CallPredict (X : data)
| CallPredictProba (X : data)
| CallScore (objective : string) (args : list data) (kw : list (string * data)).

(** Entries written to the module-level [logger]. *)
Inductive log_entry :=
| LogTitle (s : string)
| LogSubtitle (s : string)
| Log (s : string).

Record World := {
  self : Pipeline;
  calls : list call;
  logged : list log_entry
}.

Definition M (A : Type) : Type := World -> Result A * World.

#[global] Instance M_ret : MRet M := fun A a w => (Ok a, w).
#[global] Instance M_bind : MBind M :=
  fun A B f m w =>
    match m w with
    | (Ok a, w') => f a w'
    | (Raise e, w') => (Raise e, w')
    end.

Definition lift {A} (r : Result A) : M A := fun w => (r, w).
Definition raise {A} (e : exn) : M A := fun w => (Raise e, w).
Definition get_self : M Pipeline := fun w => (Ok (self w), w).
Definition modify_self (f : Pipeline -> Pipeline) : M unit :=
  fun w => (Ok tt, {| self := f (self w); calls := calls w; logged := logged w |}).
Definition record (c : call) : M unit :=
  fun w => (Ok tt, {| self := self w; calls := calls w ++ [c]; logged := logged w |}).
Definition logger (e : log_entry) : M unit :=
  fun w => (Ok tt, {| self := self w; calls := calls w; logged := logged w ++ [e] |}).

(** The world of a pipeline on which no method has run yet. *)
Definition fresh (p : Pipeline) : World :=
  {| self := p; calls := []; logged := [] |}.

(** An [OrderedDict] with string keys: [od_update k v d] is
    [d.update({k: v})], which keeps the position of a key already present
    and appends a new key at the end. *)
Fixpoint od_update {V} (k : string) (v : V) (d : list (string * V)) : list (string * V) :=
  match d with
  | [] => [(k, v)]
  | (k', v') :: d' =>
      if decide (k = k') then (k, v) :: d' else (k', v') :: od_update k v d'
  end.

Definition od_keys {V} (d : list (string * V)) : list string := map fst d.

(** Python list indexing [l[i]]: a negative index counts from the end. *)
Definition list_getitem {A} (l : list A) (i : Z) : Result A :=
  let j := if (i <? 0)%Z then (i + Z.of_nat (length l))%Z else i in
  if (j <? 0)%Z then Raise (Exn IndexError "list index out of range")
  else match l !! Z.to_nat j with
       | Some x => Ok x
       | None => Raise (Exn IndexError "list index out of range")
       end.

(** [enumerate(l, start)]. *)
Fixpoint enumerate {A} (start : nat) (l : list A) : list (nat * A) :=
  match l with
  | [] => []
  | x :: l' => (start, x) :: enumerate (S start) l'
  end.

(** The class variables a concrete pipeline declares. *)
Record PipelineClass := {
  class_component_graph : list component_ref;
  class_problem_types : list problem_type_ref
}.

(** The index of [pipeline[index]]. *)
Inductive index :=
| ISlice
| IInt (i : Z)
| IName (s : string).

Definition with_component_graph (g : list Component) (p : Pipeline) : Pipeline :=
  {| component_graph := g;
     problem_types := problem_types p;
     input_feature_names := input_feature_names p;
     results := results p;
     parameters := parameters p;
     pipeline_name := pipeline_name p |}.

Definition with_input_feature_names (m : gmap string (list label)) (p : Pipeline) : Pipeline :=
  {| component_graph := component_graph p;
     problem_types := problem_types p;
     input_feature_names := m;
     results := results p;
     parameters := parameters p;
     pipeline_name := pipeline_name p |}.

(** ** pipeline_base.py *)

Module PipelineBase.
Section WithExternals.
Context (E : Externals).

Definition _instantiate_component (component : component_ref)
    (parameters : gmap string (gmap string pyval)) : Result Component :=
  component ← handle_component E component;
  let component_class_ := component_class component in
  let component_name := name component in
  let component_parameters := default ∅ (parameters !! component_name) in
  match cc_init component_class_ component_parameters with
  | Ok (n, st) => Ok {| component_class := component_class_; name := n; attrs := st |}
  | Raise e =>
      if issubclass (exn_cls e) ValueError || issubclass (exn_cls e) TypeError then
        let err := "Error received when instantiating component " +:+ component_name
                   +:+ " with the following arguments "
                   +:+ format_kwargs E component_parameters in
        Raise (ExnFrom ValueError err e)
      else Raise e
  end.

Definition _generate_name (component_graph : list Component)
    (estimator : option Component) : string :=
  let name0 := match estimator with
               | Some e => name e
               | None => "Pipeline"
               end in
  fold_left
    (fun acc '(index, component) =>
       if decide (index = 0) then acc +:+ " w/ " +:+ name component
       else acc +:+ " + " +:+ name component)
    (enumerate 0 (removelast component_graph)) name0.

Fixpoint _validate_problem_types (estimator_problem_types problem_types : list ProblemTypes)
    : Result unit :=
  match problem_types with
  | [] => Ok tt
  | problem_type :: rest =>
      if bool_decide (problem_type ∈ estimator_problem_types)
      then _validate_problem_types estimator_problem_types rest
      else Raise (Exn ValueError
             ("Problem type " +:+ format_problem_type E problem_type
              +:+ " not valid for this component graph. Valid problem types include "
              +:+ format_problem_types E estimator_problem_types +:+ "."))
  end.

Definition __init__ (cls : PipelineClass)
    (parameters : gmap string (gmap string pyval)) : Result Pipeline :=
  component_graph_ ← mapM (fun c => _instantiate_component c parameters)
                          (class_component_graph cls);
  problem_types_ ← mapM (handle_problem_types E) (class_problem_types cls);
  last_component ← list_getitem component_graph_ (-1);
  let estimator_ := if isinstance_Estimator last_component
                    then Some last_component else None in
  match estimator_ with
  | None => Raise (Exn ValueError
      "A pipeline must have an Estimator as the last component in component_graph.")
  | Some est =>
      let name_ := _generate_name component_graph_ estimator_ in
      _validate_problem_types (cc_problem_types (component_class est)) problem_types_;;
      Ok {| component_graph := component_graph_;
            problem_types := problem_types_;
            input_feature_names := ∅;
            results := ∅;
            parameters := parameters;
            pipeline_name := name_ |}
  end.

Definition get_component (name_ : string) : M (option Component) :=
  p ← get_self;
  mret (List.find (fun component => bool_decide (name component = name_))
                  (component_graph p)).

Definition __getitem__ (i : index) : M (option Component) :=
  match i with
  | ISlice => raise (Exn NotImplementedError "Slicing pipelines is currently not supported.")
  | IInt z => p ← get_self; c ← lift (list_getitem (component_graph p) z); mret (Some c)
  | IName s => get_component s
  end.

Definition __setitem__ (i : index) (value : Component) : M unit :=
  raise (Exn NotImplementedError "Setting pipeline components is not supported.").

(** [self.estimator], read through the graph. *)
Definition self_estimator : M Component :=
  p ← get_self;
  match estimator p with
  | Some e => mret e
  | None => raise (Exn AttributeError "estimator")
  end.

Definition model_type : M string :=
  est ← self_estimator; mret (cc_model_type (component_class est)).

Fixpoint describe_steps (steps : list (nat * Component)) : M unit :=
  match steps with
  | [] => mret tt
  | (number, component) :: rest =>
      logger (Log (pretty number +:+ ". " +:+ name component));;
      mapM (fun line => logger (Log line))
           (cc_describe (component_class component) (attrs component));;
      describe_steps rest
  end.

Definition describe (return_dict : bool)
    : M (option (gmap string (gmap string pyval))) :=
  p ← get_self;
  logger (LogTitle (pipeline_name p));;
  logger (Log ("Problem Types: " +:+
               String.concat ", " (map (format_problem_type E) (problem_types p))));;
  mt ← model_type;
  logger (Log ("Model Type: " +:+ mt));;
  est ← self_estimator;
  match input_feature_names p !! name est with
  | Some features => logger (Log ("Number of features: " +:+ pretty (length features)))
  | None => mret tt
  end;;
  logger (LogSubtitle "Pipeline Steps");;
  describe_steps (enumerate 1 (component_graph p));;
  if return_dict then mret (Some (parameters p)) else mret None.

Fixpoint _transform_chain (components : list Component) (X_t : data) : Result data :=
  match components with
  | [] => Ok X_t
  | component :: rest =>
      X_t' ← cc_transform (component_class component) (attrs component) X_t;
      _transform_chain rest X_t'
  end.

Definition _transform (X : data) : M data :=
  p ← get_self;
  lift (_transform_chain (removelast (component_graph p)) X).

(** The coercions at the head of [fit], [predict] and [score]. *)
Definition as_DataFrame (X : data) : Result data :=
  match X with
  | DataFrame _ _ => Ok X
  | _ => '(columns, rows) ← pd_DataFrame E X; Ok (DataFrame columns rows)
  end.

Definition as_Series (y : data) : Result data :=
  match y with
  | Series _ => Ok y
  | _ => values ← pd_Series E y; Ok (Series values)
  end.

(** [self.input_feature_names.update({name: list(pd.DataFrame(X_t))})]. *)
Definition record_input_features (name_ : string) (X_t : data) : M unit :=
  '(columns, _) ← lift (pd_DataFrame E X_t);
  modify_self (fun p =>
    with_input_feature_names (<[name_ := columns]> (input_feature_names p)) p).

Definition component_at (i : nat) : M Component :=
  p ← get_self;
  match component_graph p !! i with
  | Some c => mret c
  | None => raise (Exn IndexError "list index out of range")
  end.

(** A fitting method mutates the component object, which the graph holds
    at position [i]. *)
Definition set_attrs (i : nat) (component : Component) (st : cstate) : M unit :=
  modify_self (fun p =>
    with_component_graph
      (<[i := {| component_class := component_class component;
                 name := name component;
                 attrs := st |}]> (component_graph p)) p).

Definition call_fit_transform (i : nat) (X_t y_t : data) : M data :=
  component ← component_at i;
  let '(r, st) := cc_fit_transform (component_class component) (attrs component) X_t y_t in
  set_attrs i component st;;
  lift r.

Definition call_fit (i : nat) (X_t y_t : data) : M unit :=
  component ← component_at i;
  let '(r, st) := cc_fit (component_class component) (attrs component) X_t y_t in
  set_attrs i component st;;
  lift r.

(** The loop of [_fit] over [self.component_graph[:-1]], by position. *)
Fixpoint _fit_transformers (positions : list nat) (X_t y_t : data) : M data :=
  match positions with
  | [] => mret X_t
  | i :: rest =>
      component ← component_at i;
      record_input_features (name component) X_t;;
      X_t' ← call_fit_transform i X_t y_t;
      _fit_transformers rest X_t' y_t
  end.

Definition _fit (X y : data) : M unit :=
  p ← get_self;
  let n := length (component_graph p) in
  X_t ← _fit_transformers (seq 0 (n - 1)) X y;
  est ← self_estimator;
  record_input_features (name est) X_t;;
  call_fit (n - 1) X_t y.

Definition fit (X y : data) : M unit :=
  X ← lift (as_DataFrame X);
  y ← lift (as_Series y);
  _fit X y.

(** The call is recorded on entry. *)
Definition predict (X : data) : M data :=
  record (CallPredict X);;
  X ← lift (as_DataFrame X);
  X_t ← _transform X;
  est ← self_estimator;
  lift (cc_predict (component_class est) (attrs est) X_t).

(** Modelled from the spec: [predict_proba], which [score] calls on [self]
    and which is defined in [classification_pipeline.py], a file that is
    not part of the sources at hand.  As the specification has it for
    [predict], the transform phase is replayed and the estimator's
    [predict_proba] is called on the result. *)
Definition predict_proba (X : data) : M data :=
  record (CallPredictProba X);;
  X ← lift (as_DataFrame X);
  X_t ← _transform X;
  est ← self_estimator;
  lift (cc_predict_proba (component_class est) (attrs est) X_t).

(** [objective.score(...)], recorded with its arguments. *)
Definition call_score (objective : Objective) (args : list data)
    (kw : list (string * data)) : M Q :=
  record (CallScore (o_name objective) args kw);;
  lift (o_score objective args kw).

(** The loop of [score]; [y_predicted] and [y_predicted_proba] start as
    [None] and hold the predictions once computed.  [predict] and
    [predict_proba] return array-likes (a [pd.Series] by [predict]'s
    docstring), never [None], so the [is None] tests of the source tell
    whether the predictions have been computed. *)
Fixpoint score_loop (X y : data) (objectives : list Objective)
    (y_predicted y_predicted_proba : option data)
    (scores : list (string * Q)) : M (list (string * Q)) :=
  match objectives with
  | [] => mret scores
  | objective :: rest =>
      '(y_predictions, y_predicted, y_predicted_proba) ←
        (if score_needs_proba objective then
           y_predicted_proba ← match y_predicted_proba with
                               | None => predict_proba X
                               | Some v => mret v
                               end;
           mret (y_predicted_proba, y_predicted, Some y_predicted_proba)
         else
           y_predicted ← match y_predicted with
                         | None => predict X
                         | Some v => mret v
                         end;
           mret (y_predicted, Some y_predicted, y_predicted_proba));
      s ← (if uses_extra_columns objective
           then call_score objective [y_predictions; y; X] []
           else call_score objective [y_predictions; y] []);
      score_loop X y rest y_predicted y_predicted_proba
                 (od_update (o_name objective) s scores)
  end.

Definition score (X y : data) (objectives : list objective_ref)
    : M (list (string * Q)) :=
  X ← lift (as_DataFrame X);
  y ← lift (as_Series y);
  objectives ← lift (mapM (get_objective E) objectives);
  score_loop X y objectives None None [].

(** The loop of [get_plot_data].  A plot metric is used through the
    attributes [name], [score_needs_proba] and [score], which it shares
    with an objective; what its [score] returns is kept at the type of
    scores, the name the source gives it.  The metrics are used as given
    (no [get_objective]) and [uses_extra_columns] is not read. *)
Fixpoint get_plot_data_loop (X y : data) (plot_metrics : list Objective)
    (y_predicted y_predicted_proba : option data)
    (scores : list (string * Q)) : M (list (string * Q)) :=
  match plot_metrics with
  | [] => mret scores
  | plot_metric :: rest =>
      '(y_predictions, y_predicted, y_predicted_proba) ←
        (if score_needs_proba plot_metric then
           y_predicted_proba ← match y_predicted_proba with
                               | None => predict_proba X
                               | Some v => mret v
                               end;
           mret (y_predicted_proba, y_predicted, Some y_predicted_proba)
         else
           y_predicted ← match y_predicted with
                         | None => predict X
                         | Some v => mret v
                         end;
           mret (y_predicted, Some y_predicted, y_predicted_proba));
      s ← call_score plot_metric [y_predictions; y] [];
      get_plot_data_loop X y rest y_predicted y_predicted_proba
                         (od_update (o_name plot_metric) s scores)
  end.

Definition get_plot_data (X y : data) (plot_metrics : list Objective)
    : M (list (string * Q)) :=
  X ← lift (as_DataFrame X);
  y ← lift (as_Series y);
  get_plot_data_loop X y plot_metrics None None [].

(** [importances.sort(key=lambda x: -abs(x[1]))].  [list.sort] is stable
    and compares keys with [<] only; [<] orders the keys of the numbers
    modelled, so the sorted list is the one that inserting each row in
    front of the sorted rest gives: a row moves behind those of smaller
    key and stays in front of the others. *)
Definition sort_key (x : label * number) : number := num_neg (num_abs (snd x)).

Fixpoint insert_by_key (x : label * number) (l : list (label * number))
    : list (label * number) :=
  match l with
  | [] => [x]
  | y :: l' =>
      if num_lt (sort_key y) (sort_key x) then y :: insert_by_key x l'
      else x :: l
  end.

Definition sort_by_key (l : list (label * number)) : list (label * number) :=
  foldr insert_by_key [] l.

(** The rows of the frame with columns [feature] and [importance]. *)
Definition feature_importances : M (list (label * number)) :=
  p ← get_self;
  est ← self_estimator;
  feature_names ← match input_feature_names p !! name est with
                  | Some l => mret l
                  | None => raise (Exn KeyError (name est))
                  end;
  importances ← lift (cc_feature_importances (component_class est) (attrs est));
  mret (sort_by_key (zip feature_names importances)).
End WithExternals.
End PipelineBase.

(** ** multiclass_classification_pipeline.py *)

Module MulticlassClassificationPipeline.
Section WithExternals.
Context (E : Externals).

Fixpoint score_loop (X y : data) (objectives : list Objective)
    (y_predicted y_predicted_proba : option data)
    (scores : list (string * Q)) : M (list (string * Q)) :=
  match objectives with
  | [] => mret scores
  | objective :: rest =>
      if score_needs_proba objective then
        y_predicted_proba ← match y_predicted_proba with
                            | None => PipelineBase.predict_proba E X
                            | Some v => mret v
                            end;
        s ← PipelineBase.call_score objective [y; y_predicted_proba] [("X", X)];
        score_loop X y rest y_predicted (Some y_predicted_proba)
                   (od_update (o_name objective) s scores)
      else
        y_predicted ← match y_predicted with
                      | None => PipelineBase.predict E X
                      | Some v => mret v
                      end;
        s ← PipelineBase.call_score objective [y; y_predicted] [("X", X)];
        score_loop X y rest (Some y_predicted) y_predicted_proba
                   (od_update (o_name objective) s scores)
  end.

Definition score (X y : data) (objectives : list objective_ref)
    : M (list (string * Q)) :=
  X ← lift (PipelineBase.as_DataFrame E X);
  y ← lift (PipelineBase.as_Series E y);
  objectives ← lift (mapM (get_objective E) objectives);
  score_loop X y objectives None None [].
End WithExternals.
End MulticlassClassificationPipeline.

(** ** classification/random_forest.py *)

(** The values passed by keyword to a pipeline constructor. *)
Inductive argument :=
| AObjective (o : objective_ref)
| AParameters (p : gmap string (gmap string pyval))
| AComponentGraph (g : list component_ref)
| AProblemTypes (l : list problem_type_ref).

(** Binding a call made with keyword arguments only to a function whose
    parameters (after [self]) are [params], none of them with a default:
    the first keyword that is not a parameter is refused, then the first
    parameter left without a value. *)
Definition bind_keywords {A} (fname : string) (params : list string)
    (kw : list (string * A)) : Result (list (string * A)) :=
  match List.find (fun '(k, _) => negb (bool_decide (k ∈ params))) kw with
  | Some (k, _) =>
      Raise (Exn TypeError
        (fname +:+ "() got an unexpected keyword argument '" +:+ k +:+ "'"))
  | None =>
      match List.find (fun q => negb (bool_decide (q ∈ map fst kw))) params with
      | Some q =>
          Raise (Exn TypeError
            (fname +:+ "() missing 1 required positional argument: '" +:+ q +:+ "'"))
      | None => Ok kw
      end
  end.

Fixpoint keyword {A} (k : string) (kw : list (string * A)) : option A :=
  match kw with
  | [] => None
  | (k', v) :: kw' => if decide (k = k') then Some v else keyword k kw'
  end.

Module RFClassificationPipeline.
Section WithExternals.
Context (E : Externals).

Definition name : string :=
  "Random Forest Classifier w/ One Hot Encoder + Simple Imputer + RF Classifier Select From Model".

Definition component_graph : list component_ref :=
  [CName "Simple Imputer"; CName "One Hot Encoder";
   CName "RF Classifier Select From Model"; CName "Random Forest Classifier"].

Definition supported_problem_types : list problem_type_ref :=
  [PTName "binary"; PTName "multiclass"].

(** [super().__init__(...)] with keyword arguments [kw]: the call goes to
    [PipelineBase.__init__(self, parameters)]. *)
Definition super__init__ (cls : PipelineClass) (kw : list (string * argument))
    : Result Pipeline :=
  bound ← bind_keywords "__init__" ["parameters"] kw;
  match keyword "parameters" bound with
  | Some (AParameters p) => PipelineBase.__init__ E cls p
  | _ => Raise (Exn AttributeError "get")
  end.

(** [cls] stands for the class variables read through [self]. *)
Definition __init__ (cls : PipelineClass) (objective : objective_ref)
    (parameters : gmap string (gmap string pyval)) : Result Pipeline :=
  super__init__ cls
    [("objective", AObjective objective);
     ("parameters", AParameters parameters);
     ("component_graph", AComponentGraph component_graph);
     ("supported_problem_types", AProblemTypes supported_problem_types)].
End WithExternals.
End RFClassificationPipeline.

(** ** The vocabulary of the specification *)

(** The error kinds of the specification's taxonomy, as the code raises
    them: each is a [ValueError] told apart by its message. *)
Definition InvalidPipelineStructure : exn :=
  Exn ValueError
    "A pipeline must have an Estimator as the last component in component_graph.".

Definition UnsupportedProblemType (E : Externals) (problem_type : ProblemTypes)
    (valid : list ProblemTypes) : exn :=
  Exn ValueError
    ("Problem type " +:+ format_problem_type E problem_type
     +:+ " not valid for this component graph. Valid problem types include "
     +:+ format_problem_types E valid +:+ ".").

Definition ComponentInstantiationError (E : Externals) (component_name : string)
    (arguments : gmap string pyval) (cause : exn) : exn :=
  ExnFrom ValueError
    ("Error received when instantiating component " +:+ component_name
     +:+ " with the following arguments " +:+ format_kwargs E arguments)
    cause.

(** The error the specification expects from an unfitted pipeline; nothing
    in the sources defines or raises it, so it can only come from a
    component. *)
Definition NotFittedError : exn_class := Derived "NotFittedError" ValueError.

(** [except (ValueError, TypeError)]. *)
Definition value_or_type_error (e : exn) : bool :=
  issubclass (exn_cls e) ValueError || issubclass (exn_cls e) TypeError.

(** The display name in the specification's words: the estimator's name,
    then the first transformer after " w/ " and each later one after
    " + ". *)
Fixpoint plus_names (ts : list Component) : string :=
  match ts with
  | [] => ""
  | t :: rest => " + " +:+ name t +:+ plus_names rest
  end.

Definition display_name (ts : list Component) (e : Component) : string :=
  match ts with
  | [] => name e
  | t1 :: rest => name e +:+ " w/ " +:+ name t1 +:+ plus_names rest
  end.

(** The names of a list in order, each kept at its first occurrence: the
    keys a mapping can have when filled in that order. *)
Fixpoint first_occurrences (l : list string) : list string :=
  match l with
  | [] => []
  | x :: l' => x :: filter (fun y => y ≠ x) (first_occurrences l')
  end.

Definition is_predict (c : call) : bool :=
  match c with CallPredict _ => true | _ => false end.
Definition is_predict_proba (c : call) : bool :=
  match c with CallPredictProba _ => true | _ => false end.
Definition is_score (c : call) : bool :=
  match c with CallScore _ _ _ => true | _ => false end.

Definition count (f : call -> bool) (l : list call) : nat :=
  length (List.filter f l).

(** The two implementations of [score]. *)
Inductive score_impl :=
| BaseScore
| MulticlassScore.

Definition score_of (E : Externals) (k : score_impl)
    : data -> data -> list objective_ref -> M (list (string * Q)) :=
  match k with
  | BaseScore => PipelineBase.score E
  | MulticlassScore => MulticlassClassificationPipeline.score E
  end.

(** What [predict] and [predict_proba] return for pipeline [p]. *)
Definition predictions (E : Externals) (p : Pipeline) (X : data) : Result data :=
  fst (PipelineBase.predict E X (fresh p)).
Definition probabilities (E : Externals) (p : Pipeline) (X : data) : Result data :=
  fst (PipelineBase.predict_proba E X (fresh p)).

Definition is_Ok {A} (r : Result A) : Prop := exists a, r = Ok a.

(** The world after a sequence of [fit] calls, successful or not. *)
Definition after_fits (E : Externals) (fits : list (data * data)) (w : World) : World :=
  fold_left (fun w '(X, y) => snd (PipelineBase.fit E X y w)) fits w.

(** The arguments the specification gives to an objective's [score]:
    predictions first, ground truth second, the features only on request. *)
Definition expected_score_call (X y : data) (preds proba : data) (o : Objective) : call :=
  CallScore (o_name o)
    ([if score_needs_proba o then proba else preds; y]
       ++ if uses_extra_columns o then [X] else [])
    [].

(** A world with more calls recorded. *)
Definition extend (w : World) (cs : list call) : World :=
  {| self := self w; calls := calls w ++ cs; logged := logged w |}.

(** The keys of a mapping after [update({k: v})]. *)
Definition add_key (k : string) (ks : list string) : list string :=
  if bool_decide (k ∈ ks) then ks else ks ++ [k].

(** The common shape of the two [score] loops: [call_args o v] gives the
    positional and the keyword arguments [o.score] is called with when the
    predictions chosen for [o] are [v]. *)
Fixpoint scoring_loop (E : Externals)
    (call_args : Objective -> data -> list data * list (string * data))
    (X : data) (objectives : list Objective)
    (y_predicted y_predicted_proba : option data)
    (scores : list (string * Q)) : M (list (string * Q)) :=
  match objectives with
  | [] => mret scores
  | objective :: rest =>
      if score_needs_proba objective then
        v ← match y_predicted_proba with
            | None => PipelineBase.predict_proba E X
            | Some v => mret v
            end;
        s ← PipelineBase.call_score objective
              (fst (call_args objective v)) (snd (call_args objective v));
        scoring_loop E call_args X rest y_predicted (Some v)
                     (od_update (o_name objective) s scores)
      else
        v ← match y_predicted with
            | None => PipelineBase.predict E X
            | Some v => mret v
            end;
        s ← PipelineBase.call_score objective
              (fst (call_args objective v)) (snd (call_args objective v));
        scoring_loop E call_args X rest (Some v) y_predicted_proba
                     (od_update (o_name objective) s scores)
  end.

(** The arguments in [PipelineBase.score] and in
    [MulticlassClassificationPipeline.score]. *)
Definition base_call_args (X y : data) (o : Objective) (v : data)
    : list data * list (string * data) :=
  (if uses_extra_columns o then [v; y; X] else [v; y], []).

Definition multiclass_call_args (X y : data) (o : Objective) (v : data)
    : list data * list (string * data) :=
  ([y; v], [("X", X)]).

Definition call_args_of (impl : score_impl) (X y : data)
    : Objective -> data -> list data * list (string * data) :=
  match impl with
  | BaseScore => base_call_args X y
  | MulticlassScore => multiclass_call_args X y
  end.

(** The call [o.score] receives for predictions [preds] and probability
    estimates [proba] under a choice of arguments. *)
Definition score_call
    (call_args : Objective -> data -> list data * list (string * data))
    (preds proba : data) (o : Objective) : call :=
  let v := if score_needs_proba o then proba else preds in
  CallScore (o_name o) (fst (call_args o v)) (snd (call_args o v)).

(** ** Notions used in the proofs *)

(** One iteration of the loop: the predictions are taken from the cache or
    computed, then the objective is called. *)
Definition fetch (cache : option data) (compute : M data) : M data :=
  match cache with
  | None => compute
  | Some v => mret v
  end.

(** The objective can be scored on pipeline [p]: the predictions it asks
    for are available and its [score] accepts them. *)
Definition scorable (E : Externals)
    (call_args : Objective -> data -> list data * list (string * data))
    (p : Pipeline) (X : data) (o : Objective) : Prop :=
  exists v,
    (if score_needs_proba o then probabilities E p X else predictions E p X) = Ok v /\
    is_Ok (o_score o (fst (call_args o v)) (snd (call_args o v))).

(** What is shown of a run of the scoring loop from world [w]. *)
Definition loop_facts (E : Externals)
    (call_args : Objective -> data -> list data * list (string * data))
    (X : data) (objs : list Objective) (yp ypp : option data)
    (scores : list (string * Q)) (w : World)
    (run : Result (list (string * Q)) * World) : Prop :=
  exists cs,
    snd run = extend w cs /\
    count is_predict cs <= match yp with Some _ => 0 | None => 1 end /\
    count is_predict_proba cs <= match ypp with Some _ => 0 | None => 1 end /\
    (forall scores', fst run = Ok scores' ->
       od_keys scores' = fold_left (fun ks k => add_key k ks) (map o_name objs) (od_keys scores)) /\
    (forall preds proba,
       (forall u, yp = Some u -> u = preds) ->
       (forall u, predictions E (self w) X = Ok u -> u = preds) ->
       (forall u, ypp = Some u -> u = proba) ->
       (forall u, probabilities E (self w) X = Ok u -> u = proba) ->
       is_Ok (fst run) ->
       List.filter is_score cs = map (score_call call_args preds proba) objs) /\
    ((forall u, yp = Some u -> predictions E (self w) X = Ok u) ->
     (forall u, ypp = Some u -> probabilities E (self w) X = Ok u) ->
     Forall (scorable E call_args (self w) X) objs ->
     is_Ok (fst run)).

(** [keeps R m]: running [m] relates the world before to the world after. *)
Definition keeps {A} (R : World -> World -> Prop) (m : M A) : Prop :=
  forall w, R w (snd (m w)).

(** [fit] changes neither the parameters nor the number of components. *)
Definition same_setup (w w' : World) : Prop :=
  parameters (self w') = parameters (self w) /\
  length (component_graph (self w')) = length (component_graph (self w)).

(** ** A small concrete setting

    Two component classes that need no training data to work (a
    pass-through scaler and a baseline classifier predicting class 0), a
    registry holding them, and two objectives.  The examples below run the
    pipeline code on them. *)

Module Stub.
Definition rows_of (X : data) : list (list Q) :=
  match X with
  | DataFrame _ rows => rows
  | NdArray rows => rows
  | Series values => map (fun v => [v]) values
  end.

Definition Scaler : ComponentClass := {|
  cc_Estimator := false;
  cc_init := fun _ => Ok ("Scaler", []);
  cc_fit_transform := fun st X _ => (Ok X, [PBool true]);
  cc_transform := fun _ X => Ok X;
  cc_fit := fun st _ _ => (Ok tt, [PBool true]);
  cc_predict := fun _ _ => Raise (Exn AttributeError "predict");
  cc_predict_proba := fun _ _ => Raise (Exn AttributeError "predict_proba");
  cc_feature_importances := fun _ => Raise (Exn AttributeError "feature_importances");
  cc_describe := fun _ => [];
  cc_problem_types := [];
  cc_model_type := ""
|}.

Definition Classifier : ComponentClass := {|
  cc_Estimator := true;
  cc_init := fun kw =>
    match kw !! "n_estimators" with
    | None => Ok ("Classifier", [PInt 10])
    | Some (PInt n) =>
        if (n <? 1)%Z then Raise (Exn ValueError "n_estimators must be positive")
        else Ok ("Classifier", [PInt n])
    | Some _ => Raise (Exn TypeError "n_estimators must be an integer")
    end;
  cc_fit_transform := fun st _ _ => (Raise (Exn AttributeError "fit_transform"), st);
  cc_transform := fun _ _ => Raise (Exn AttributeError "transform");
  cc_fit := fun st _ _ => (Ok tt, st ++ [PBool true]);
  cc_predict := fun _ X => Ok (Series (map (fun _ => 0%Q) (rows_of X)));
  cc_predict_proba := fun _ X => Ok (NdArray (map (fun _ => [1%Q; 0%Q]) (rows_of X)));
  cc_feature_importances := fun _ => Ok [];
  cc_describe := fun st => ["n_estimators"];
  cc_problem_types := [BINARY; MULTICLASS];
  cc_model_type := "baseline"
|}.

Definition registry (s : string) : Result Component :=
  if decide (s = "Scaler")
  then Ok {| component_class := Scaler; name := "Scaler"; attrs := [] |}
  else if decide (s = "Classifier")
  then Ok {| component_class := Classifier; name := "Classifier"; attrs := [PInt 10] |}
  else Raise (Exn KeyError s).

Definition externals : Externals := {|
  handle_component := fun r =>
    match r with
    | CName s => registry s
    | CObject c => Ok c
    end;
  handle_problem_types := fun r =>
    match r with
    | PTEnum t => Ok t
    | PTName s =>
        if decide (s = "binary") then Ok BINARY
        else if decide (s = "multiclass") then Ok MULTICLASS
        else if decide (s = "regression") then Ok REGRESSION
        else Raise (Exn KeyError s)
    end;
  get_objective := fun r =>
    match r with
    | OObject o => Ok o
    | OName s => Raise (Exn KeyError s)
    end;
  pd_DataFrame := fun d =>
    match d with
    | DataFrame columns rows => Ok (columns, rows)
    | NdArray rows =>
        Ok (map (fun i => LInt (Z.of_nat i)) (seq 0 (length (hd [] rows))), rows)
    | Series values => Ok ([LInt 0], map (fun v => [v]) values)
    end;
  pd_Series := fun d =>
    match d with
    | Series values => Ok values
    | NdArray rows => Ok (concat rows)
    | DataFrame _ _ => Raise (Exn ValueError "cannot build a Series from a frame")
    end;
  format_kwargs := fun kw => String.concat ", " (map fst (map_to_list kw));
  format_problem_type := fun t =>
    match t with
    | BINARY => "binary"
    | MULTICLASS => "multiclass"
    | REGRESSION => "regression"
    end;
  format_problem_types := fun l =>
    String.concat ", "
      (map (fun t => match t with
                     | BINARY => "binary"
                     | MULTICLASS => "multiclass"
                     | REGRESSION => "regression"
                     end) l)
|}.

(** An objective on hard predictions and one on probability estimates;
    both take their two positional arguments and an optional [X]. *)
Definition agreement (a b : data) : Q :=
  match a, b with
  | Series u, Series v =>
      inject_Z (Z.of_nat (length (List.filter (fun '(x, y) => Qeq_bool x y) (zip u v))))
  | _, _ => 0
  end.

Definition objective_score (args : list data) (kw : list (string * data)) : Result Q :=
  match args with
  | [a; b] | [a; b; _] => Ok (agreement a b)
  | _ => Raise (Exn TypeError "score() takes 2 or 3 positional arguments")
  end.

Definition Accuracy : Objective := {|
  o_name := "Accuracy";
  score_needs_proba := false;
  uses_extra_columns := false;
  o_score := objective_score
|}.

(** The precision for class 0 of predictions against the ground truth:
    among the rows predicted 0, the share whose true class is 0.  Its two
    arguments are not interchangeable. *)
Definition precision (predicted truth : data) : Q :=
  match predicted, truth with
  | Series u, Series v =>
      let predicted0 := List.filter (fun '(x, _) => Qeq_bool x 0) (zip u v) in
      let correct := List.filter (fun '(_, t) => Qeq_bool t 0) predicted0 in
      match predicted0 with
      | [] => 0
      | _ => Qred (Z.of_nat (length correct) # Pos.of_nat (length predicted0))
      end
  | _, _ => 0
  end.

Definition Precision : Objective := {|
  o_name := "Precision";
  score_needs_proba := false;
  uses_extra_columns := false;
  o_score := fun args kw =>
    match args with
    | [a; b] | [a; b; _] => Ok (precision a b)
    | _ => Raise (Exn TypeError "score() takes 2 or 3 positional arguments")
    end
|}.

Definition LogLoss : Objective := {|
  o_name := "Log Loss";
  score_needs_proba := true;
  uses_extra_columns := false;
  o_score := objective_score
|}.

Definition Lead : Objective := {|
  o_name := "Lead Scoring";
  score_needs_proba := false;
  uses_extra_columns := true;
  o_score := objective_score
|}.

(** A pipeline class with one transformer and one estimator. *)
Definition ScaledClassifier : PipelineClass := {|
  class_component_graph := [CName "Scaler"; CName "Classifier"];
  class_problem_types := [PTName "binary"]
|}.

Definition scaler : Component :=
  {| component_class := Scaler; name := "Scaler"; attrs := [] |}.
Definition classifier : Component :=
  {| component_class := Classifier; name := "Classifier"; attrs := [PInt 10] |}.

(** The pipeline [ScaledClassifier(parameters={})] builds. *)
Definition pipeline : Pipeline := {|
  component_graph := [scaler; classifier];
  problem_types := [BINARY];
  input_feature_names := ∅;
  results := ∅;
  parameters := ∅;
  pipeline_name := "Classifier w/ Scaler"
|}.

(** A second transformer, given to a pipeline class as a live component. *)
Definition Encoder : ComponentClass := {|
  cc_Estimator := false;
  cc_init := fun _ => Ok ("Encoder", []);
  cc_fit_transform := fun st X _ => (Ok X, [PBool true]);
  cc_transform := fun _ X => Ok X;
  cc_fit := fun st _ _ => (Ok tt, [PBool true]);
  cc_predict := fun _ _ => Raise (Exn AttributeError "predict");
  cc_predict_proba := fun _ _ => Raise (Exn AttributeError "predict_proba");
  cc_feature_importances := fun _ => Raise (Exn AttributeError "feature_importances");
  cc_describe := fun _ => [];
  cc_problem_types := [];
  cc_model_type := ""
|}.

Definition encoder : Component :=
  {| component_class := Encoder; name := "Encoder"; attrs := [] |}.

Definition EncodedClassifier : PipelineClass := {|
  class_component_graph := [CName "Scaler"; CObject encoder; CName "Classifier"];
  class_problem_types := [PTEnum MULTICLASS]
|}.

(** The pipeline [EncodedClassifier(parameters={})] builds. *)
Definition encoded_pipeline : Pipeline := {|
  component_graph := [scaler; encoder; classifier];
  problem_types := [MULTICLASS];
  input_feature_names := ∅;
  results := ∅;
  parameters := ∅;
  pipeline_name := "Classifier w/ Scaler + Encoder"
|}.

(** The same components in the wrong order, and a class declaring a
    problem type the classifier does not support. *)
Definition Backwards : PipelineClass := {|
  class_component_graph := [CName "Classifier"; CName "Scaler"];
  class_problem_types := [PTName "binary"]
|}.

(** The wrong order again, declared for a problem type that does not
    exist. *)
Definition BackwardsUnknown : PipelineClass := {|
  class_component_graph := [CName "Classifier"; CName "Scaler"];
  class_problem_types := [PTName "nonsense"]
|}.

Definition ScaledRegressor : PipelineClass := {|
  class_component_graph := [CName "Scaler"; CName "Classifier"];
  class_problem_types := [PTName "binary"; PTName "regression"]
|}.

(** Parameters the classifier's constructor rejects. *)
Definition bad_parameters : gmap string (gmap string pyval) :=
  <["Classifier" := <["n_estimators" := PInt 0]> ∅]> ∅.

Definition X : data := DataFrame [LStr "a"; LStr "b"] [[1%Q; 2%Q]; [3%Q; 4%Q]].
Definition y : data := Series [0%Q; 1%Q].
(** A class that declares no component. *)
Definition Hollow : PipelineClass := {|
  class_component_graph := [];
  class_problem_types := [PTName "binary"]
|}.

(** An estimator that reports feature importances, and a fitted-to-be
    pipeline around it. *)
Definition Ranker : ComponentClass := {|
  cc_Estimator := true;
  cc_init := fun _ => Ok ("Ranker", []);
  cc_fit_transform := fun st _ _ => (Raise (Exn AttributeError "fit_transform"), st);
  cc_transform := fun _ _ => Raise (Exn AttributeError "transform");
  cc_fit := fun st _ _ => (Ok tt, [PBool true]);
  cc_predict := fun _ X => Ok (Series (map (fun _ => 0%Q) (rows_of X)));
  cc_predict_proba := fun _ X => Ok (NdArray (map (fun _ => [1%Q; 0%Q]) (rows_of X)));
  cc_feature_importances :=
    fun _ => Ok [Num (1 # 5); Num (- (7 # 10)); Num (1 # 5); Num 0];
  cc_describe := fun _ => [];
  cc_problem_types := [BINARY];
  cc_model_type := "ranker"
|}.

Definition ranker : Component :=
  {| component_class := Ranker; name := "Ranker"; attrs := [] |}.

Definition ranking_pipeline : Pipeline := {|
  component_graph := [scaler; ranker];
  problem_types := [BINARY];
  input_feature_names := ∅;
  results := ∅;
  parameters := ∅;
  pipeline_name := "Ranker w/ Scaler"
|}.

Definition X4 : data :=
  DataFrame [LStr "a"; LStr "b"; LStr "c"; LStr "d"] [[1%Q; 2%Q; 3%Q; 4%Q]].
Definition y1 : data := Series [1%Q].

(** A transformer that fails, in fitting and in transforming. *)
Definition Faulty : ComponentClass := {|
  cc_Estimator := false;
  cc_init := fun _ => Ok ("Faulty", []);
  cc_fit_transform := fun st _ _ => (Raise (Exn ValueError "cannot fit"), [PBool false]);
  cc_transform := fun _ _ => Raise (Exn ValueError "cannot transform");
  cc_fit := fun st _ _ => (Raise (Exn ValueError "cannot fit"), [PBool false]);
  cc_predict := fun _ _ => Raise (Exn AttributeError "predict");
  cc_predict_proba := fun _ _ => Raise (Exn AttributeError "predict_proba");
  cc_feature_importances := fun _ => Raise (Exn AttributeError "feature_importances");
  cc_describe := fun _ => [];
  cc_problem_types := [];
  cc_model_type := ""
|}.

Definition faulty : Component :=
  {| component_class := Faulty; name := "Faulty"; attrs := [] |}.

Definition faulty_pipeline : Pipeline := {|
  component_graph := [scaler; faulty; classifier];
  problem_types := [BINARY];
  input_feature_names := ∅;
  results := ∅;
  parameters := ∅;
  pipeline_name := "Classifier w/ Scaler + Faulty"
|}.

Definition faulty_first_pipeline : Pipeline := {|
  component_graph := [faulty; classifier];
  problem_types := [BINARY];
  input_feature_names := ∅;
  results := ∅;
  parameters := ∅;
  pipeline_name := "Classifier w/ Faulty"
|}.
End Stub.


(** ** Notions for the further properties *)

(** The arguments of a plot metric's [score] in [get_plot_data]. *)
Definition plot_call_args (y : data) (o : Objective) (v : data)
    : list data * list (string * data) :=
  ([v; y], []).

Definition from_Ok {A} (d : A) (r : Result A) : A :=
  match r with
  | Ok a => a
  | Raise _ => d
  end.

(** 1 when some element of the list satisfies [f], 0 otherwise. *)
Definition once (f : Objective -> bool) (l : list Objective) : nat :=
  if existsb f l then 1 else 0.

Definition wants_predictions (o : Objective) : bool := negb (score_needs_proba o).

(** What [fit] leaves as it was: everything but the recorded feature names
    and the attributes of the components. *)
Definition fit_frame (w w' : World) : Prop :=
  parameters (self w') = parameters (self w) /\
  pipeline_name (self w') = pipeline_name (self w) /\
  problem_types (self w') = problem_types (self w) /\
  results (self w') = results (self w) /\
  map name (component_graph (self w')) = map name (component_graph (self w)) /\
  map component_class (component_graph (self w')) =
    map component_class (component_graph (self w)) /\
  calls w' = calls w /\
  logged w' = logged w.

(** The feature names recorded so far stay recorded. *)
Definition keys_grow (w w' : World) : Prop :=
  forall k, is_Some (input_feature_names (self w) !! k) ->
            is_Some (input_feature_names (self w') !! k).

(** The structure [__init__] checks: a graph that ends with an
    [Estimator] supporting every problem type of the pipeline. *)
Definition well_formed (p : Pipeline) : Prop :=
  exists ts e,
    component_graph p = ts ++ [e] /\
    isinstance_Estimator e = true /\
    forall t, t ∈ problem_types p -> t ∈ cc_problem_types (component_class e).



(** Only the recorded calls and the log may differ. *)
Definition same_pipeline (w w' : World) : Prop := self w' = self w.

(** Both at once: what every step of [fit] keeps. *)
Definition fit_keeps (w w' : World) : Prop := fit_frame w w' /\ keys_grow w w'.


Definition with_parameters (m : gmap string (gmap string pyval)) (p : Pipeline) : Pipeline :=
  {| component_graph := component_graph p;
     problem_types := problem_types p;
     input_feature_names := input_feature_names p;
     results := results p;
     parameters := m;
     pipeline_name := pipeline_name p |}.

(** Only the log may have grown. *)
Definition log_grows (w w' : World) : Prop :=
  self w' = self w /\ calls w' = calls w /\ exists l, logged w' = logged w ++ l.

(** [c] is the instance built for the graph entry [r] under [params]. *)
Definition built_from (E : Externals) (params : gmap string (gmap string pyval))
    (r : component_ref) (c : Component) : Prop :=
  exists h,
    handle_component E r = Ok h /\
    component_class c = component_class h /\
    cc_init (component_class h) (default ∅ (params !! name h)) = Ok (name c, attrs c).

(** The entry the mapping holds for objective [o]: its name and the value
    its [score] returned. *)
Definition scored (call_args : Objective -> data -> list data * list (string * data))
    (preds proba : data) (o : Objective) (entry : string * Q) : Prop :=
  let v := if score_needs_proba o then proba else preds in
  fst entry = o_name o /\
  o_score o (fst (call_args o v)) (snd (call_args o v)) = Ok (snd entry).

(** * Properties *)

(** ** Auxiliary facts *)

Lemma append_cons (ch : Ascii.ascii) (a b : string) :
  String ch a +:+ b = String ch (a +:+ b).
Proof. reflexivity. Qed.

Lemma append_assoc (a b c : string) : (a +:+ b) +:+ c = a +:+ (b +:+ c).
Proof.
  induction a as [|ch a IH]; [reflexivity|].
  rewrite !append_cons. now rewrite IH.
Qed.

Lemma append_empty_r (a : string) : a +:+ "" = a.
Proof.
  induction a as [|ch a IH]; [reflexivity|].
  rewrite append_cons. now rewrite IH.
Qed.

Lemma bind_Ok {A B} (f : A -> Result B) (a : A) : (Ok a ≫= f) = f a.
Proof. reflexivity. Qed.

Lemma bind_Raise {A B} (f : A -> Result B) (e : exn) : (Raise e ≫= f) = Raise e.
Proof. reflexivity. Qed.

Lemma mapM_cons {A B} (f : A -> Result B) (x : A) (l : list A) :
  mapM f (x :: l) = (y ← f x; k ← mapM f l; mret (y :: k)).
Proof. reflexivity. Qed.

(** A list comprehension stops at the first element that raises. *)
Lemma mapM_app_Raise {A B} (f : A -> Result B) (pre post : list A) (x : A) (e : exn) :
  is_Ok (mapM f pre) -> f x = Raise e -> mapM f (pre ++ x :: post) = Raise e.
Proof.
  revert e. induction pre as [|a pre IH]; intros e [ys Hys] Hx.
  - cbn [app]. rewrite mapM_cons, Hx. reflexivity.
  - rewrite mapM_cons in Hys. cbn [app]. rewrite mapM_cons.
    destruct (f a) as [b|e']; [|discriminate].
    rewrite bind_Ok in *.
    rewrite IH with (e := e); [reflexivity | | assumption].
    destruct (mapM f pre) as [k|e']; [now exists k | discriminate].
Qed.

Lemma list_getitem_last {A} (l : list A) :
  list_getitem l (-1) =
    match last l with
    | Some x => Ok x
    | None => Raise (Exn IndexError "list index out of range")
    end.
Proof.
  unfold list_getitem. rewrite last_lookup.
  change (-1 <? 0)%Z with true. cbv iota.
  destruct l as [|x l]; [reflexivity|].
  assert (Hj : (-1 + Z.of_nat (length (x :: l)))%Z = Z.of_nat (length l)).
  { simpl length. lia. }
  rewrite Hj.
  destruct (Z.ltb_spec (Z.of_nat (length l)) 0) as [Hlt|_]; [lia|].
  rewrite Nat2Z.id. reflexivity.
Qed.

(** [__init__] once the two comprehensions have run. *)
Lemma init_after_comprehensions E cls params comps pts :
  mapM (fun c => PipelineBase._instantiate_component E c params)
       (class_component_graph cls) = Ok comps ->
  mapM (handle_problem_types E) (class_problem_types cls) = Ok pts ->
  PipelineBase.__init__ E cls params =
    match last comps with
    | None => Raise (Exn IndexError "list index out of range")
    | Some c =>
        if isinstance_Estimator c then
          match PipelineBase._validate_problem_types E
                  (cc_problem_types (component_class c)) pts with
          | Ok _ =>
              Ok {| component_graph := comps;
                    problem_types := pts;
                    input_feature_names := ∅;
                    results := ∅;
                    parameters := params;
                    pipeline_name := PipelineBase._generate_name comps (Some c) |}
          | Raise e => Raise e
          end
        else Raise InvalidPipelineStructure
    end.
Proof.
  intros Hc Hp. unfold PipelineBase.__init__.
  rewrite Hc, bind_Ok, Hp, bind_Ok, list_getitem_last.
  destruct (last comps) as [c|]; [|reflexivity].
  rewrite bind_Ok. destruct (isinstance_Estimator c); reflexivity.
Qed.

(** What a successful construction tells about its result. *)
Lemma init_Ok_inv E cls params p :
  PipelineBase.__init__ E cls params = Ok p ->
  exists comps pts e,
    mapM (fun c => PipelineBase._instantiate_component E c params)
         (class_component_graph cls) = Ok comps /\
    mapM (handle_problem_types E) (class_problem_types cls) = Ok pts /\
    last comps = Some e /\ isinstance_Estimator e = true /\
    PipelineBase._validate_problem_types E (cc_problem_types (component_class e)) pts = Ok tt /\
    p = {| component_graph := comps;
           problem_types := pts;
           input_feature_names := ∅;
           results := ∅;
           parameters := params;
           pipeline_name := PipelineBase._generate_name comps (Some e) |}.
Proof.
  intros H.
  destruct (mapM (fun c => PipelineBase._instantiate_component E c params)
                 (class_component_graph cls)) as [comps|e0] eqn:Hc;
    [|unfold PipelineBase.__init__ in H; rewrite Hc in H; discriminate].
  destruct (mapM (handle_problem_types E) (class_problem_types cls)) as [pts|e0] eqn:Hp;
    [|unfold PipelineBase.__init__ in H; rewrite Hc, bind_Ok, Hp in H; discriminate].
  rewrite (init_after_comprehensions E cls params comps pts Hc Hp) in H.
  destruct (last comps) as [e|] eqn:Hl; [|discriminate].
  destruct (isinstance_Estimator e) eqn:He; [|discriminate].
  destruct (PipelineBase._validate_problem_types E _ pts) as [[]|e0] eqn:Hv; [|discriminate].
  exists comps, pts, e. repeat split; try assumption. congruence.
Qed.

Lemma generate_name_rest (ts : list Component) (k : nat) (acc : string) :
  k <> 0 ->
  fold_left
    (fun acc '(index, component) =>
       if decide (index = 0) then acc +:+ " w/ " +:+ name component
       else acc +:+ " + " +:+ name component)
    (enumerate k ts) acc = acc +:+ plus_names ts.
Proof.
  revert k acc. induction ts as [|t ts IH]; intros k acc Hk; simpl.
  - now rewrite append_empty_r.
  - destruct (decide (k = 0)) as [->|_]; [contradiction|].
    rewrite IH by lia. now rewrite append_assoc.
Qed.

Lemma generate_name_display (ts : list Component) (e : Component) :
  PipelineBase._generate_name (ts ++ [e]) (Some e) = display_name ts e.
Proof.
  unfold PipelineBase._generate_name. rewrite removelast_last.
  destruct ts as [|t1 rest]; [reflexivity|]. simpl.
  rewrite generate_name_rest by lia. now rewrite append_assoc.
Qed.



Lemma wrapped_differs (c : exn_class) (m : string) (e : exn) : ExnFrom c m e <> e.
Proof.
  revert c m. induction e as [c' m'|c' m' e IH]; intros c m H; [discriminate|].
  injection H as _ _ H. now apply IH in H.
Qed.

(** ** Construction *)

(** C3.  [RFClassificationPipeline.__init__(objective, parameters)] never
    builds a pipeline: it hands [objective], [component_graph] and
    [supported_problem_types] by keyword to [PipelineBase.__init__], which
    takes [parameters] only, so the call is refused with a [TypeError]
    whatever the objective, the parameters and the class variables are. *)
Theorem rf_init_raises_TypeError (E : Externals) (cls : PipelineClass)
    (objective : objective_ref) (params : gmap string (gmap string pyval)) :
  RFClassificationPipeline.__init__ E cls objective params =
    Raise (Exn TypeError "__init__() got an unexpected keyword argument 'objective'").
Proof. reflexivity. Qed.

(** C4.  When every entry of the component graph has been instantiated and
    the last component is not an [Estimator], construction fails: with the
    invalid-structure error as soon as the declared problem types resolve
    (they are resolved first), and otherwise with the error of that
    resolution.  No pipeline is returned, so nothing is left for [fit] to
    find. *)
Theorem last_component_must_be_estimator (E : Externals) (cls : PipelineClass)
    (params : gmap string (gmap string pyval)) (comps : list Component) (c : Component) :
  mapM (fun r => PipelineBase._instantiate_component E r params)
       (class_component_graph cls) = Ok comps ->
  last comps = Some c ->
  isinstance_Estimator c = false ->
  match mapM (handle_problem_types E) (class_problem_types cls) with
  | Ok _ => PipelineBase.__init__ E cls params = Raise InvalidPipelineStructure
  | Raise e => PipelineBase.__init__ E cls params = Raise e
  end.
Proof.
  intros Hc Hl He.
  destruct (mapM (handle_problem_types E) (class_problem_types cls)) as [pts|e] eqn:Hp.
  - rewrite (init_after_comprehensions E cls params comps pts Hc Hp), Hl, He.
    reflexivity.
  - unfold PipelineBase.__init__. rewrite Hc, bind_Ok, Hp. reflexivity.
Qed.


(** C8.  When the constructor of a component's class rejects the keyword
    arguments found for it in [parameters]:
    - with a [ValueError] or a [TypeError] (or a subclass), the component
      instantiation raises the instantiation error, whose message carries
      the component's name and the arguments and whose cause is the
      constructor's exception; that exception itself is not what is raised;
      and construction of a pipeline whose graph instantiates up to that
      component fails with the same error;
    - with an exception of another class, that exception is raised as it
      is. *)
Theorem constructor_errors_wrapped (E : Externals) (r : component_ref)
    (params : gmap string (gmap string pyval)) (comp : Component) (e : exn) :
  handle_component E r = Ok comp ->
  cc_init (component_class comp) (default ∅ (params !! name comp)) = Raise e ->
  let kw := default ∅ (params !! name comp) in
  let wrapped := ComponentInstantiationError E (name comp) kw e in
  (value_or_type_error e = true ->
     PipelineBase._instantiate_component E r params = Raise wrapped /\
     exn_cls wrapped = ValueError /\
     exn_msg wrapped = "Error received when instantiating component " +:+ name comp
                       +:+ " with the following arguments " +:+ format_kwargs E kw /\
     exn_cause wrapped = Some e /\
     wrapped <> e /\
     forall cls pre post,
       class_component_graph cls = pre ++ r :: post ->
       is_Ok (mapM (fun r => PipelineBase._instantiate_component E r params) pre) ->
       PipelineBase.__init__ E cls params = Raise wrapped)
  /\
  (value_or_type_error e = false ->
     PipelineBase._instantiate_component E r params = Raise e /\
     forall cls pre post,
       class_component_graph cls = pre ++ r :: post ->
       is_Ok (mapM (fun r => PipelineBase._instantiate_component E r params) pre) ->
       PipelineBase.__init__ E cls params = Raise e).
Proof.
  intros Hh Hi kw wrapped.
  assert (Hinst : PipelineBase._instantiate_component E r params =
                  if value_or_type_error e then Raise wrapped else Raise e).
  { unfold PipelineBase._instantiate_component. rewrite Hh, bind_Ok.
    fold kw. unfold kw at 1. rewrite Hi. reflexivity. }
  assert (Hinit : forall x cls pre post,
            PipelineBase._instantiate_component E r params = Raise x ->
            class_component_graph cls = pre ++ r :: post ->
            is_Ok (mapM (fun r => PipelineBase._instantiate_component E r params) pre) ->
            PipelineBase.__init__ E cls params = Raise x).
  { intros x cls pre post Hx Hg Hpre. unfold PipelineBase.__init__.
    rewrite Hg, (mapM_app_Raise _ pre post r x Hpre Hx). reflexivity. }
  split; intros Hv; rewrite Hv in Hinst.
  - split; [assumption|]. split; [reflexivity|]. split; [reflexivity|].
    split; [reflexivity|]. split; [apply wrapped_differs|].
    intros cls pre post. now apply Hinit.
  - split; [assumption|]. intros cls pre post. now apply Hinit.
Qed.

(** C9.  A constructed pipeline has a graph [ts ++ [e]] with [e] an
    [Estimator], and its name is [e]'s name alone when [ts] is empty, and
    otherwise [e]'s name, " w/ " and the first transformer's name, then
    " + " and the name of each later transformer in graph order. *)
Theorem name_of_constructed_pipeline (E : Externals) (cls : PipelineClass)
    (params : gmap string (gmap string pyval)) (p : Pipeline) :
  PipelineBase.__init__ E cls params = Ok p ->
  exists ts e,
    component_graph p = ts ++ [e] /\
    isinstance_Estimator e = true /\
    pipeline_name p = display_name ts e.
Proof.
  intros H. destruct (init_Ok_inv E cls params p H)
    as (comps & pts & e & _ & _ & Hl & He & _ & ->).
  apply last_Some in Hl as [ts ->].
  exists ts, e. split; [reflexivity|]. split; [assumption|].
  apply generate_name_display.
Qed.

(** C10.  [get_component(name)] never raises and leaves the pipeline, the
    call record and the log as they were; it returns the component at the
    first position of the graph where the name matches, or [None] when no
    component of the graph has that name.  [pipeline[name]] is the same
    lookup. *)
Theorem get_component_first_match (n : string) (w : World) :
  exists r : option Component,
    PipelineBase.get_component n w = (Ok r, w) /\
    PipelineBase.__getitem__ (IName n) w = (Ok r, w) /\
    match r with
    | Some c =>
        exists i, component_graph (self w) !! i = Some c /\ name c = n /\
          forall j c', j < i -> component_graph (self w) !! j = Some c' -> name c' <> n
    | None => forall c, c ∈ component_graph (self w) -> name c <> n
    end.
Proof.
  exists (List.find (fun c => bool_decide (name c = n)) (component_graph (self w))).
  split; [reflexivity|]. split; [reflexivity|].
  induction (component_graph (self w)) as [|c g IH]; simpl.
  - intros c Hc. inversion Hc.
  - destruct (decide (name c = n)) as [Heq|Hne].
    + rewrite bool_decide_eq_true_2 by assumption.
      exists 0. split; [reflexivity|]. split; [assumption|]. intros j c' Hj. lia.
    + rewrite bool_decide_eq_false_2 by assumption.
      destruct (List.find _ g) as [c0|].
      * destruct IH as (i & Hi & Hn & Hfirst).
        exists (S i). split; [exact Hi|]. split; [assumption|].
        intros [|j] c' Hj Hc'; simpl in Hc'.
        -- now inversion Hc'; subst.
        -- apply (Hfirst j); [lia|assumption].
      * intros c' Hc'. apply elem_of_cons in Hc' as [->|Hc']; [assumption|now apply IH].
Qed.

(** ** Running the methods *)

Lemma bind_run {A B} (m : M A) (f : A -> M B) (w : World) :
  (m ≫= f) w =
    match m w with
    | (Ok a, w') => f a w'
    | (Raise e, w') => (Raise e, w')
    end.
Proof. reflexivity. Qed.

Lemma extend_nil (w : World) : extend w [] = w.
Proof. destruct w. unfold extend. simpl. now rewrite app_nil_r. Qed.

Lemma extend_extend (w : World) (a b : list call) :
  extend (extend w a) b = extend w (a ++ b).
Proof. unfold extend. simpl. now rewrite app_assoc. Qed.

Lemma count_app (f : call -> bool) (a b : list call) :
  count f (a ++ b) = count f a + count f b.
Proof. unfold count. now rewrite List.filter_app, length_app. Qed.

Lemma predict_run E X w :
  PipelineBase.predict E X w = (predictions E (self w) X, extend w [CallPredict X]).
Proof.
  unfold predictions, PipelineBase.predict, fresh.
  rewrite !bind_run. cbn [record fst snd self calls logged].
  rewrite !bind_run. unfold lift.
  destruct (PipelineBase.as_DataFrame E X) as [X'|e]; [|reflexivity].
  rewrite !bind_run. unfold PipelineBase._transform. rewrite !bind_run.
  cbn [get_self self]. unfold lift.
  destruct (PipelineBase._transform_chain _ X') as [X_t|e]; [|reflexivity].
  rewrite !bind_run. unfold PipelineBase.self_estimator. rewrite !bind_run.
  cbn [get_self self].
  destruct (estimator (self w)); reflexivity.
Qed.

Lemma predict_proba_run E X w :
  PipelineBase.predict_proba E X w =
    (probabilities E (self w) X, extend w [CallPredictProba X]).
Proof.
  unfold probabilities, PipelineBase.predict_proba, fresh.
  rewrite !bind_run. cbn [record fst snd self calls logged].
  rewrite !bind_run. unfold lift.
  destruct (PipelineBase.as_DataFrame E X) as [X'|e]; [|reflexivity].
  rewrite !bind_run. unfold PipelineBase._transform. rewrite !bind_run.
  cbn [get_self self]. unfold lift.
  destruct (PipelineBase._transform_chain _ X') as [X_t|e]; [|reflexivity].
  rewrite !bind_run. unfold PipelineBase.self_estimator. rewrite !bind_run.
  cbn [get_self self].
  destruct (estimator (self w)); reflexivity.
Qed.

Lemma call_score_run o args kw w :
  PipelineBase.call_score o args kw w =
    (o_score o args kw, extend w [CallScore (o_name o) args kw]).
Proof.
  unfold PipelineBase.call_score. rewrite bind_run. cbn [record].
  unfold lift, extend. reflexivity.
Qed.

Lemma fetch_run (cache : option data) (compute : M data) (c : call) (r : Result data) w :
  compute w = (r, extend w [c]) ->
  exists cs,
    fetch cache compute w = (match cache with Some v => Ok v | None => r end, extend w cs) /\
    cs = match cache with Some _ => [] | None => [c] end.
Proof.
  intros H. destruct cache as [v|]; simpl.
  - exists []. now rewrite extend_nil.
  - exists [c]. now rewrite H.
Qed.

Lemma od_keys_update {V} (k : string) (v : V) (d : list (string * V)) :
  od_keys (od_update k v d) = add_key k (od_keys d).
Proof.
  unfold add_key. induction d as [|[k' v'] d IH]; simpl; [reflexivity|].
  destruct (decide (k = k')) as [->|Hne].
  - rewrite bool_decide_eq_true_2 by left. reflexivity.
  - simpl. rewrite IH. fold (od_keys d).
    destruct (decide (k ∈ od_keys d)) as [Hin|Hnin].
    + rewrite !bool_decide_eq_true_2; [reflexivity | now right | assumption].
    + rewrite !bool_decide_eq_false_2; [reflexivity | | assumption].
      intros H. apply elem_of_cons in H as [?|?]; contradiction.
Qed.

Lemma scoring_loop_facts E call_args X objs :
  forall yp ypp scores w,
    loop_facts E call_args X objs yp ypp scores w
      (scoring_loop E call_args X objs yp ypp scores w).
Proof.
  induction objs as [|o rest IH]; intros yp ypp scores w.
  - exists []. cbn [scoring_loop]. unfold mret, M_ret. cbn [fst snd].
    rewrite extend_nil. repeat split.
    + destruct yp; cbn; lia.
    + destruct ypp; cbn; lia.
    + intros scores' [= <-]. reflexivity.
    + now exists scores.
  - cbn [scoring_loop]. destruct (score_needs_proba o) eqn:Hn.
    + (* probability estimates *)
      change (match ypp with None => PipelineBase.predict_proba E X | Some v => mret v end)
        with (fetch ypp (PipelineBase.predict_proba E X)).
      destruct (fetch_run ypp _ _ _ w (predict_proba_run E X w)) as (cs0 & Hf & Hcs0).
      rewrite bind_run, Hf.
      destruct (match ypp with Some v => Ok v | None => probabilities E (self w) X end)
        as [v|e] eqn:Hv.
      * rewrite bind_run, call_score_run, extend_extend.
        destruct (o_score o _ _) as [s|e] eqn:Hs.
        -- destruct (IH yp (Some v) (od_update (o_name o) s scores)
                        (extend w (cs0 ++ [CallScore (o_name o) (fst (call_args o v))
                                                     (snd (call_args o v))])))
             as (cs & Hsnd & Hp & Hpp & Hkeys & Hdisp & Htot).
           exists ((cs0 ++ [CallScore (o_name o) (fst (call_args o v)) (snd (call_args o v))]) ++ cs).
           rewrite Hsnd, extend_extend. split; [reflexivity|].
           cbn [self extend] in *.
           split; [|split; [|split; [|split]]].
           ++ rewrite !count_app. subst cs0. destruct ypp; cbn in *; lia.
           ++ rewrite !count_app. subst cs0. destruct ypp; cbn in *; lia.
           ++ intros scores' H. rewrite (Hkeys scores' H), od_keys_update. reflexivity.
           ++ intros preds proba H1 H2 H3 H4 Hok.
              assert (v = proba) as ->.
              { destruct ypp as [u|]; [inversion Hv; subst; now apply H3 | now apply H4]. }
              rewrite !List.filter_app, (Hdisp preds proba); try assumption.
              ** cbn [map].
                 assert (Hsc : score_call call_args preds proba o =
                               CallScore (o_name o) (fst (call_args o proba))
                                         (snd (call_args o proba)))
                   by (unfold score_call; now rewrite Hn).
                 rewrite Hsc. subst cs0. destruct ypp; reflexivity.
              ** intros u [= <-]. reflexivity.
           ++ intros Hc1 Hc2 HF. apply Forall_cons in HF as [_ HF].
              apply Htot; [assumption| |assumption].
              intros u [= <-]. destruct ypp as [u|]; [|assumption].
              inversion Hv; subst. now apply Hc2.
        -- exists (cs0 ++ [CallScore (o_name o) (fst (call_args o v)) (snd (call_args o v))]).
           cbn [fst snd]. split; [reflexivity|].
           split; [|split; [|split; [|split]]].
           ++ rewrite !count_app. subst cs0. destruct ypp, yp; cbn; lia.
           ++ rewrite !count_app. subst cs0. destruct ypp; cbn; lia.
           ++ intros scores' [=].
           ++ intros preds proba _ _ _ _ [? [=]].
           ++ intros Hc1 Hc2 HF. apply Forall_cons in HF as [(v0 & Hv0 & s' & Hs') _].
              rewrite Hn in Hv0.
              assert (v0 = v) as ->.
              { destruct ypp as [u|]; [|congruence].
                inversion Hv; subst. rewrite (Hc2 v eq_refl) in Hv0. congruence. }
              congruence.
      * exists cs0. cbn [fst snd]. split; [reflexivity|].
        split; [|split; [|split; [|split]]].
        -- subst cs0. destruct ypp, yp; cbn; lia.
        -- subst cs0. destruct ypp; cbn; lia.
        -- intros scores' [=].
        -- intros preds proba _ _ _ _ [? [=]].
        -- intros _ _ HF. apply Forall_cons in HF as [(v0 & Hv0 & _) _].
           rewrite Hn in Hv0. destruct ypp; [discriminate | congruence].
    + (* hard predictions *)
      change (match yp with None => PipelineBase.predict E X | Some v => mret v end)
        with (fetch yp (PipelineBase.predict E X)).
      destruct (fetch_run yp _ _ _ w (predict_run E X w)) as (cs0 & Hf & Hcs0).
      rewrite bind_run, Hf.
      destruct (match yp with Some v => Ok v | None => predictions E (self w) X end)
        as [v|e] eqn:Hv.
      * rewrite bind_run, call_score_run, extend_extend.
        destruct (o_score o _ _) as [s|e] eqn:Hs.
        -- destruct (IH (Some v) ypp (od_update (o_name o) s scores)
                        (extend w (cs0 ++ [CallScore (o_name o) (fst (call_args o v))
                                                     (snd (call_args o v))])))
             as (cs & Hsnd & Hp & Hpp & Hkeys & Hdisp & Htot).
           exists ((cs0 ++ [CallScore (o_name o) (fst (call_args o v)) (snd (call_args o v))]) ++ cs).
           rewrite Hsnd, extend_extend. split; [reflexivity|].
           cbn [self extend] in *.
           split; [|split; [|split; [|split]]].
           ++ rewrite !count_app. subst cs0. destruct yp; cbn in *; lia.
           ++ rewrite !count_app. subst cs0. destruct yp; cbn in *; lia.
           ++ intros scores' H. rewrite (Hkeys scores' H), od_keys_update. reflexivity.
           ++ intros preds proba H1 H2 H3 H4 Hok.
              assert (v = preds) as ->.
              { destruct yp as [u|]; [inversion Hv; subst; now apply H1 | now apply H2]. }
              rewrite !List.filter_app, (Hdisp preds proba); try assumption.
              ** cbn [map].
                 assert (Hsc : score_call call_args preds proba o =
                               CallScore (o_name o) (fst (call_args o preds))
                                         (snd (call_args o preds)))
                   by (unfold score_call; now rewrite Hn).
                 rewrite Hsc. subst cs0. destruct yp; reflexivity.
              ** intros u [= <-]. reflexivity.
           ++ intros Hc1 Hc2 HF. apply Forall_cons in HF as [_ HF].
              apply Htot; [|assumption|assumption].
              intros u [= <-]. destruct yp as [u|]; [|assumption].
              inversion Hv; subst. now apply Hc1.
        -- exists (cs0 ++ [CallScore (o_name o) (fst (call_args o v)) (snd (call_args o v))]).
           cbn [fst snd]. split; [reflexivity|].
           split; [|split; [|split; [|split]]].
           ++ rewrite !count_app. subst cs0. destruct yp; cbn; lia.
           ++ rewrite !count_app. subst cs0. destruct ypp, yp; cbn; lia.
           ++ intros scores' [=].
           ++ intros preds proba _ _ _ _ [? [=]].
           ++ intros Hc1 Hc2 HF. apply Forall_cons in HF as [(v0 & Hv0 & s' & Hs') _].
              rewrite Hn in Hv0.
              assert (v0 = v) as ->.
              { destruct yp as [u|]; [|congruence].
                inversion Hv; subst. rewrite (Hc1 v eq_refl) in Hv0. congruence. }
              congruence.
      * exists cs0. cbn [fst snd]. split; [reflexivity|].
        split; [|split; [|split; [|split]]].
        -- subst cs0. destruct yp; cbn; lia.
        -- subst cs0. destruct ypp, yp; cbn; lia.
        -- intros scores' [=].
        -- intros preds proba _ _ _ _ [? [=]].
        -- intros _ _ HF. apply Forall_cons in HF as [(v0 & Hv0 & _) _].
           rewrite Hn in Hv0. destruct yp; [discriminate | congruence].
Qed.

Lemma base_loop_shape E X y objs :
  forall yp ypp scores w,
    PipelineBase.score_loop E X y objs yp ypp scores w =
    scoring_loop E (base_call_args X y) X objs yp ypp scores w.
Proof.
  induction objs as [|o rest IH]; intros yp ypp scores w; [reflexivity|].
  cbn [PipelineBase.score_loop scoring_loop]. unfold base_call_args.
  destruct (score_needs_proba o).
  - rewrite !bind_run.
    destruct (match ypp with None => PipelineBase.predict_proba E X | Some v => mret v end w)
      as [[v|e] w1]; [|reflexivity].
    cbn [mret M_ret]. rewrite !bind_run.
    destruct (uses_extra_columns o); cbn [fst snd];
      (destruct (PipelineBase.call_score o _ _ w1) as [[s|e] w2]; [apply IH|reflexivity]).
  - rewrite !bind_run.
    destruct (match yp with None => PipelineBase.predict E X | Some v => mret v end w)
      as [[v|e] w1]; [|reflexivity].
    cbn [mret M_ret]. rewrite !bind_run.
    destruct (uses_extra_columns o); cbn [fst snd];
      (destruct (PipelineBase.call_score o _ _ w1) as [[s|e] w2]; [apply IH|reflexivity]).
Qed.

Lemma multiclass_loop_shape E X y objs :
  forall yp ypp scores w,
    MulticlassClassificationPipeline.score_loop E X y objs yp ypp scores w =
    scoring_loop E (multiclass_call_args X y) X objs yp ypp scores w.
Proof.
  induction objs as [|o rest IH]; intros yp ypp scores w; [reflexivity|].
  cbn [MulticlassClassificationPipeline.score_loop scoring_loop].
  unfold multiclass_call_args. cbn [fst snd].
  destruct (score_needs_proba o).
  - rewrite !bind_run.
    destruct (match ypp with None => PipelineBase.predict_proba E X | Some v => mret v end w)
      as [[v|e] w1]; [|reflexivity].
    rewrite !bind_run.
    destruct (PipelineBase.call_score o _ _ w1) as [[s|e] w2]; [apply IH|reflexivity].
  - rewrite !bind_run.
    destruct (match yp with None => PipelineBase.predict E X | Some v => mret v end w)
      as [[v|e] w1]; [|reflexivity].
    rewrite !bind_run.
    destruct (PipelineBase.call_score o _ _ w1) as [[s|e] w2]; [apply IH|reflexivity].
Qed.

Lemma keys_in_order (names : list string) :
  forall ks,
    fold_left (fun ks k => add_key k ks) names ks =
    ks ++ filter (fun k => k ∉ ks) (first_occurrences names).
Proof.
  induction names as [|x l IH]; intros ks; cbn [fold_left first_occurrences].
  - now rewrite filter_nil, app_nil_r.
  - unfold add_key at 2. destruct (decide (x ∈ ks)) as [Hin|Hnin].
    + rewrite bool_decide_eq_true_2 by assumption. rewrite IH.
      rewrite filter_cons_False by (intros H; now apply H).
      rewrite list_filter_filter. f_equal. apply list_filter_iff.
      intros k. split; [|tauto]. intros Hk. split; [assumption|].
      intros ->. contradiction.
    + rewrite bool_decide_eq_false_2 by assumption. rewrite IH.
      rewrite filter_cons_True by assumption.
      rewrite <- app_assoc. cbn [app]. do 2 f_equal.
      rewrite list_filter_filter. apply list_filter_iff.
      intros k. rewrite not_elem_of_app, not_elem_of_cons. 
      split; [intros [? [? _]]; tauto | intros [? ?]; repeat split; try assumption].
      apply not_elem_of_nil.
Qed.

Lemma first_occurrences_NoDup (l : list string) :
  NoDup l -> first_occurrences l = l.
Proof.
  induction 1 as [|x l Hx Hnd IH]; cbn [first_occurrences]; [reflexivity|].
  rewrite IH. f_equal. clear IH Hnd.
  induction l as [|a l IH]; [reflexivity|].
  apply not_elem_of_cons in Hx as [Hne Hx].
  rewrite filter_cons_True by congruence. now rewrite IH.
Qed.

(** ** What a method leaves unchanged *)

Section Keeps.
Context (R : World -> World -> Prop).
Hypothesis R_refl : forall w, R w w.
Hypothesis R_trans : forall a b c, R a b -> R b c -> R a c.

Lemma keeps_ret {A} (a : A) : keeps R (mret a).
Proof. intros w. apply R_refl. Qed.

Lemma keeps_lift {A} (r : Result A) : keeps R (lift r).
Proof. intros w. apply R_refl. Qed.

Lemma keeps_raise {A} (e : exn) : keeps R (@raise A e).
Proof. intros w. apply R_refl. Qed.

Lemma keeps_get_self : keeps R get_self.
Proof. intros w. apply R_refl. Qed.

Lemma keeps_bind {A B} (m : M A) (f : A -> M B) :
  keeps R m -> (forall a, keeps R (f a)) -> keeps R (m ≫= f).
Proof.
  intros Hm Hf w. rewrite bind_run. specialize (Hm w).
  destruct (m w) as [[a|e] w']; cbn [snd] in *; [|assumption].
  eapply R_trans; [exact Hm | apply Hf].
Qed.
End Keeps.

Lemma same_setup_refl w : same_setup w w.
Proof. split; reflexivity. Qed.

Lemma same_setup_trans a b c : same_setup a b -> same_setup b c -> same_setup a c.
Proof. intros [H1 H2] [H3 H4]. split; congruence. Qed.

Ltac keeps_step :=
  first
    [ apply keeps_ret; [apply same_setup_refl]
    | apply keeps_lift; [apply same_setup_refl]
    | apply keeps_raise; [apply same_setup_refl]
    | apply keeps_get_self; [apply same_setup_refl]
    | apply keeps_bind; [apply same_setup_trans | | intros ?] ].

Lemma fit_keeps_setup E X y : keeps same_setup (PipelineBase.fit E X y).
Proof.
  assert (Hrec : forall n d, keeps same_setup (PipelineBase.record_input_features E n d)).
  { intros n d. unfold PipelineBase.record_input_features.
    keeps_step; [keeps_step|]. destruct a as [columns rows].
    intros w. split; reflexivity. }
  assert (Hat : forall i, keeps same_setup (PipelineBase.component_at i)).
  { intros i. unfold PipelineBase.component_at. keeps_step; [keeps_step|].
    destruct (component_graph a !! i); keeps_step. }
  assert (Hset : forall i c st, keeps same_setup (PipelineBase.set_attrs i c st)).
  { intros i c st w. split; [reflexivity|]. cbn. apply length_insert. }
  assert (Hest : keeps same_setup PipelineBase.self_estimator).
  { unfold PipelineBase.self_estimator. keeps_step; [keeps_step|].
    destruct (estimator a); keeps_step. }
  assert (Hft : forall i a b, keeps same_setup (PipelineBase.call_fit_transform i a b)).
  { intros i a b. unfold PipelineBase.call_fit_transform. keeps_step; [apply Hat|].
    destruct (cc_fit_transform _ _ a b) as [r st].
    keeps_step; [apply Hset | keeps_step]. }
  assert (Hf : forall i a b, keeps same_setup (PipelineBase.call_fit i a b)).
  { intros i a b. unfold PipelineBase.call_fit. keeps_step; [apply Hat|].
    destruct (cc_fit _ _ a b) as [r st].
    keeps_step; [apply Hset | keeps_step]. }
  assert (Hloop : forall l a b, keeps same_setup (PipelineBase._fit_transformers E l a b)).
  { induction l as [|i l IH]; intros a b; cbn [PipelineBase._fit_transformers].
    - keeps_step.
    - keeps_step; [apply Hat|]. keeps_step; [apply Hrec|].
      keeps_step; [apply Hft | apply IH]. }
  unfold PipelineBase.fit, PipelineBase._fit.
  keeps_step; [keeps_step|]. keeps_step; [keeps_step|].
  keeps_step; [keeps_step|]. keeps_step; [apply Hloop|].
  keeps_step; [apply Hest|]. keeps_step; [apply Hrec | apply Hf].
Qed.

Lemma after_fits_keeps_setup E fits w : same_setup w (after_fits E fits w).
Proof.
  revert w. induction fits as [|[X y] fits IH]; intros w; [apply same_setup_refl|].
  unfold after_fits in *. cbn [fold_left].
  eapply same_setup_trans; [apply fit_keeps_setup | apply IH].
Qed.

Lemma log_lines_run (lines : list string) w :
  exists r w', mapM (fun line => logger (Log line)) lines w = (Ok r, w') /\ self w' = self w.
Proof.
  revert w. induction lines as [|l lines IH]; intros w.
  - exists [], w. split; reflexivity.
  - cbn [mapM]. rewrite bind_run. cbn [logger].
    destruct (IH {| self := self w; calls := calls w; logged := logged w ++ [Log l] |})
      as (r & w' & Hr & Hs).
    rewrite bind_run, Hr. exists (tt :: r), w'. split; [reflexivity | exact Hs].
Qed.

Lemma describe_steps_run (steps : list (nat * Component)) w :
  exists w', PipelineBase.describe_steps steps w = (Ok tt, w') /\ self w' = self w.
Proof.
  revert w. induction steps as [|[number component] steps IH]; intros w.
  - exists w. split; reflexivity.
  - cbn [PipelineBase.describe_steps]. rewrite bind_run. cbn [logger].
    rewrite bind_run.
    destruct (log_lines_run (cc_describe (component_class component) (attrs component))
                {| self := self w; calls := calls w;
                   logged := logged w ++ [Log (pretty number +:+ ". " +:+ name component)] |})
      as (r & w1 & Hr & Hs1).
    rewrite Hr. destruct (IH w1) as (w2 & Hr2 & Hs2).
    exists w2. split; [exact Hr2 | cbn [self] in Hs1; congruence].
Qed.

Lemma describe_run E (return_dict : bool) w e :
  estimator (self w) = Some e ->
  exists w', PipelineBase.describe E return_dict w =
               (Ok (if return_dict then Some (parameters (self w)) else None), w') /\
             self w' = self w.
Proof.
  intros He. unfold PipelineBase.describe, PipelineBase.model_type,
    PipelineBase.self_estimator.
  repeat (rewrite bind_run; cbn [get_self logger self]).
  rewrite He. cbn [mret M_ret].
  repeat (rewrite bind_run; cbn [get_self logger self]).
  rewrite He. cbn [mret M_ret]. rewrite bind_run.
  match goal with
  | |- context [PipelineBase.describe_steps ?s] => set (steps := s)
  end.
  destruct (input_feature_names (self w) !! name e) as [features|];
    cbn [logger mret M_ret]; rewrite bind_run; cbn [logger]; rewrite bind_run;
    match goal with
    | |- context [PipelineBase.describe_steps steps ?w0] =>
        destruct (describe_steps_run steps w0) as (w' & Hr & Hs)
    end;
    rewrite Hr; exists w'; (split; [destruct return_dict; reflexivity | exact Hs]).
Qed.

Lemma filter_all {A} (P : A -> Prop) `{forall x, Decision (P x)} (l : list A) :
  (forall x, x ∈ l -> P x) -> filter P l = l.
Proof.
  induction l as [|a l IH]; intros Hall; [reflexivity|].
  rewrite filter_cons_True by (apply Hall; left).
  f_equal. apply IH. intros x Hx. apply Hall. now right.
Qed.

Lemma elem_of_first_occurrences (l : list string) (n : string) :
  n ∈ first_occurrences l <-> n ∈ l.
Proof.
  induction l as [|x l IH]; cbn [first_occurrences]; [reflexivity|].
  rewrite !elem_of_cons, list_elem_of_filter, IH.
  destruct (decide (n = x)); tauto.
Qed.

Lemma score_run E impl X y refs X' y' objs w :
  PipelineBase.as_DataFrame E X = Ok X' ->
  PipelineBase.as_Series E y = Ok y' ->
  mapM (get_objective E) refs = Ok objs ->
  score_of E impl X y refs w =
    scoring_loop E (call_args_of impl X' y') X' objs None None [] w.
Proof.
  intros HX Hy Ho.
  destruct impl; cbn [score_of call_args_of];
    [unfold PipelineBase.score | unfold MulticlassClassificationPipeline.score];
    rewrite bind_run; unfold lift at 1; rewrite HX;
    rewrite bind_run; unfold lift at 1; rewrite Hy;
    rewrite bind_run; unfold lift at 1; rewrite Ho.
  - apply base_loop_shape.
  - apply multiclass_loop_shape.
Qed.

(** Whatever happens in [score], also when it raises, [predict] and
    [predict_proba] are each called at most once, and the pipeline is left
    as it was. *)
Lemma score_calls_bounded E impl X y refs w :
  exists cs,
    snd (score_of E impl X y refs w) = extend w cs /\
    count is_predict cs <= 1 /\ count is_predict_proba cs <= 1.
Proof.
  assert (Hfail : forall (e : exn) (r : Result (list (string * Q)) * World),
             r = (Raise e, w) ->
             exists cs, snd r = extend w cs /\
                        count is_predict cs <= 1 /\ count is_predict_proba cs <= 1).
  { intros e r ->. exists []. rewrite extend_nil. cbn. repeat split; lia. }
  destruct (PipelineBase.as_DataFrame E X) as [X'|e] eqn:HX.
  2:{ apply (Hfail e). destruct impl; cbn [score_of];
      [unfold PipelineBase.score | unfold MulticlassClassificationPipeline.score];
      rewrite bind_run; unfold lift at 1; now rewrite HX. }
  destruct (PipelineBase.as_Series E y) as [y'|e] eqn:Hy.
  2:{ apply (Hfail e). destruct impl; cbn [score_of];
      [unfold PipelineBase.score | unfold MulticlassClassificationPipeline.score];
      rewrite bind_run; unfold lift at 1; rewrite HX;
      rewrite bind_run; unfold lift at 1; now rewrite Hy. }
  destruct (mapM (get_objective E) refs) as [objs|e] eqn:Ho.
  2:{ apply (Hfail e). destruct impl; cbn [score_of];
      [unfold PipelineBase.score | unfold MulticlassClassificationPipeline.score];
      rewrite bind_run; unfold lift at 1; rewrite HX;
      rewrite bind_run; unfold lift at 1; rewrite Hy;
      rewrite bind_run; unfold lift at 1; now rewrite Ho. }
  rewrite (score_run E impl X y refs X' y' objs w HX Hy Ho).
  destruct (scoring_loop_facts E (call_args_of impl X' y') X' objs None None [] w)
    as (cs & Hs & Hp & Hpp & _).
  exists cs. repeat split; assumption.
Qed.

(** ** Scoring *)

(** C1.  Take a pipeline whose predictions are available (a fitted one)
    and a list of objectives that resolve and can be scored on them.  Then
    [score], in [PipelineBase] as in [MulticlassClassificationPipeline],
    returns a mapping whose keys are the objectives' names in the order
    requested, each name at its first occurrence: exactly the list of
    names when they are distinct, and in any case the same set of names.
    During the call [predict] is called at most once and [predict_proba]
    at most once, however many objectives ask for each. *)
Theorem score_keys_and_prediction_reuse (E : Externals) (impl : score_impl)
    (X y X' y' : data) (refs : list objective_ref) (objs : list Objective) (w : World) :
  PipelineBase.as_DataFrame E X = Ok X' ->
  PipelineBase.as_Series E y = Ok y' ->
  mapM (get_objective E) refs = Ok objs ->
  Forall (scorable E (call_args_of impl X' y') (self w) X') objs ->
  exists scores cs,
    score_of E impl X y refs w = (Ok scores, extend w cs) /\
    od_keys scores = first_occurrences (map o_name objs) /\
    (forall n, n ∈ od_keys scores <-> n ∈ map o_name objs) /\
    (NoDup (map o_name objs) -> od_keys scores = map o_name objs) /\
    count is_predict cs <= 1 /\
    count is_predict_proba cs <= 1.
Proof.
  intros HX Hy Ho Hfit.
  rewrite (score_run E impl X y refs X' y' objs w HX Hy Ho).
  destruct (scoring_loop_facts E (call_args_of impl X' y') X' objs None None [] w)
    as (cs & Hs & Hp & Hpp & Hkeys & _ & Htot).
  destruct (Htot ltac:(discriminate) ltac:(discriminate) Hfit) as [scores Hscores].
  exists scores, cs.
  assert (Hk : od_keys scores = first_occurrences (map o_name objs)).
  { rewrite (Hkeys scores Hscores), keys_in_order. cbn [od_keys map app].
    apply filter_all. intros n _. apply not_elem_of_nil. }
  split; [|split; [exact Hk|split; [|split; [|split; assumption]]]].
  - destruct (scoring_loop _ _ _ _ _ _ _ w) as [r w']. cbn [fst snd] in *. congruence.
  - intros n. rewrite Hk. apply elem_of_first_occurrences.
  - intros Hnd. rewrite Hk. now apply first_occurrences_NoDup.
Qed.

(** In a successful [score], the calls made to the objectives are, in
    order, the calls [score_call] describes for the implementation's choice
    of arguments. *)
Lemma score_dispatch E impl X y refs X' y' objs w scores w' preds proba :
  PipelineBase.as_DataFrame E X = Ok X' ->
  PipelineBase.as_Series E y = Ok y' ->
  mapM (get_objective E) refs = Ok objs ->
  (forall u, predictions E (self w) X' = Ok u -> u = preds) ->
  (forall u, probabilities E (self w) X' = Ok u -> u = proba) ->
  score_of E impl X y refs w = (Ok scores, w') ->
  exists cs,
    w' = extend w cs /\
    List.filter is_score cs = map (score_call (call_args_of impl X' y') preds proba) objs.
Proof.
  intros HX Hy Ho Hp Hpp Hrun.
  rewrite (score_run E impl X y refs X' y' objs w HX Hy Ho) in Hrun.
  destruct (scoring_loop_facts E (call_args_of impl X' y') X' objs None None [] w)
    as (cs & Hs & _ & _ & _ & Hdisp & _).
  rewrite Hrun in Hs, Hdisp. cbn [fst snd] in *.
  exists cs. split; [assumption|].
  apply Hdisp; try assumption; try discriminate. now exists scores.
Qed.

(** [PipelineBase.score] calls each objective as the specification has
    it: the predictions of the kind the objective asks for first, the
    ground truth second, and [X] only for an objective that uses extra
    columns. *)
Lemma base_score_follows_interface E X y refs X' y' objs w scores w' preds proba :
  PipelineBase.as_DataFrame E X = Ok X' ->
  PipelineBase.as_Series E y = Ok y' ->
  mapM (get_objective E) refs = Ok objs ->
  (forall u, predictions E (self w) X' = Ok u -> u = preds) ->
  (forall u, probabilities E (self w) X' = Ok u -> u = proba) ->
  PipelineBase.score E X y refs w = (Ok scores, w') ->
  exists cs,
    w' = extend w cs /\
    List.filter is_score cs = map (expected_score_call X' y' preds proba) objs.
Proof.
  intros HX Hy Ho Hp Hpp Hrun.
  destruct (score_dispatch E BaseScore X y refs X' y' objs w scores w' preds proba
              HX Hy Ho Hp Hpp Hrun) as (cs & Hw & Hcs).
  exists cs. split; [assumption|]. rewrite Hcs. apply map_ext. intros o.
  unfold score_call, expected_score_call, call_args_of, base_call_args.
  destruct (uses_extra_columns o); reflexivity.
Qed.

(** [MulticlassClassificationPipeline.score] calls each objective with
    the ground truth first, the predictions second, and [X] by keyword
    whatever the objective's [uses_extra_columns]. *)
Lemma multiclass_score_calls E X y refs X' y' objs w scores w' preds proba :
  PipelineBase.as_DataFrame E X = Ok X' ->
  PipelineBase.as_Series E y = Ok y' ->
  mapM (get_objective E) refs = Ok objs ->
  (forall u, predictions E (self w) X' = Ok u -> u = preds) ->
  (forall u, probabilities E (self w) X' = Ok u -> u = proba) ->
  MulticlassClassificationPipeline.score E X y refs w = (Ok scores, w') ->
  exists cs,
    w' = extend w cs /\
    List.filter is_score cs =
      map (fun o => CallScore (o_name o)
                      [y'; if score_needs_proba o then proba else preds]
                      [("X", X')]) objs.
Proof.
  intros HX Hy Ho Hp Hpp Hrun.
  exact (score_dispatch E MulticlassScore X y refs X' y' objs w scores w' preds proba
           HX Hy Ho Hp Hpp Hrun).
Qed.

(** C6.  On the pipeline of the concrete setting, scored on one objective
    (the precision for class 0) that works on hard predictions and does
    not use extra columns, [MulticlassClassificationPipeline.score] calls
    the objective with the ground truth first and the predictions second
    and passes [X] by keyword: not the call the specification describes,
    which [PipelineBase.score] makes on the same input.  The same
    objective, pipeline and data so get the score 1 from the one and 1/2
    from the other. *)
Theorem multiclass_score_argument_order :
  let preds := Series [0%Q; 0%Q] in
  let proba := NdArray [[1%Q; 0%Q]; [1%Q; 0%Q]] in
  let expected := expected_score_call Stub.X Stub.y preds proba Stub.Precision in
  let multiclass :=
    MulticlassClassificationPipeline.score Stub.externals Stub.X Stub.y
      [OObject Stub.Precision] (fresh Stub.pipeline) in
  let base :=
    PipelineBase.score Stub.externals Stub.X Stub.y
      [OObject Stub.Precision] (fresh Stub.pipeline) in
  predictions Stub.externals Stub.pipeline Stub.X = Ok preds /\
  expected = CallScore "Precision" [preds; Stub.y] [] /\
  calls (snd multiclass)
    = [CallPredict Stub.X; CallScore "Precision" [Stub.y; preds] [("X", Stub.X)]] /\
  calls (snd base) = [CallPredict Stub.X; expected] /\
  fst multiclass = Ok [("Precision", 1%Q)] /\
  fst base = Ok [("Precision", (1 # 2)%Q)].
Proof. vm_compute. repeat split; reflexivity. Qed.

(** ** Describing and fitting *)

(** C7.  For a pipeline constructed with parameters [params],
    [describe(return_dict=True)] returns [params] itself, before any [fit]
    and after any sequence of [fit] calls, whether they succeed or not. *)
Theorem describe_returns_parameters (E : Externals) (cls : PipelineClass)
    (params : gmap string (gmap string pyval)) (p : Pipeline)
    (fits : list (data * data)) :
  PipelineBase.__init__ E cls params = Ok p ->
  fst (PipelineBase.describe E true (after_fits E fits (fresh p))) = Ok (Some params).
Proof.
  intros H. destruct (init_Ok_inv E cls params p H)
    as (comps & pts & e & _ & _ & Hl & _ & _ & ->).
  destruct (after_fits_keeps_setup E fits
              (fresh {| component_graph := comps; problem_types := pts;
                        input_feature_names := ∅; results := ∅; parameters := params;
                        pipeline_name := PipelineBase._generate_name comps (Some e) |}))
    as [Hpar Hlen].
  cbn [fresh self parameters component_graph] in Hpar, Hlen.
  match goal with |- context [after_fits E fits ?w0] => set (w := after_fits E fits w0) in * end.
  assert (Hest : is_Some (estimator (self w))).
  { unfold estimator. apply last_is_Some. intros Hnil. rewrite Hnil in Hlen.
    apply last_Some in Hl as [ts ->]. rewrite length_app in Hlen. cbn in Hlen. lia. }
  destruct Hest as [e' He'].
  destruct (describe_run E true w e' He') as (w' & Hr & _).
  rewrite Hr. cbn [fst]. now rewrite Hpar.
Qed.

(** C2 (as amended).  The pipeline keeps no record of having been fitted
    and checks none.  On a pipeline just constructed, with graph
    [ts ++ [e]]: [predict(X)] is the coercion of [X], the [transform] of
    each transformer of [ts] in order and [e]'s [predict], and so raises
    only what one of these raises; [score] on one objective that works on
    hard predictions is that [predict] followed by the objective's
    [score]; and [feature_importances] raises [KeyError] on [e]'s name. *)
Theorem unfitted_pipeline_is_not_checked (E : Externals) (cls : PipelineClass)
    (params : gmap string (gmap string pyval)) (p : Pipeline) (X : data) :
  PipelineBase.__init__ E cls params = Ok p ->
  exists ts e,
    component_graph p = ts ++ [e] /\
    fst (PipelineBase.predict E X (fresh p)) =
      (X' ← PipelineBase.as_DataFrame E X;
       X_t ← PipelineBase._transform_chain ts X';
       cc_predict (component_class e) (attrs e) X_t) /\
    (forall impl y X' y' r o,
       PipelineBase.as_DataFrame E X = Ok X' ->
       PipelineBase.as_Series E y = Ok y' ->
       get_objective E r = Ok o ->
       score_needs_proba o = false ->
       fst (score_of E impl X y [r] (fresh p)) =
         (v ← fst (PipelineBase.predict E X' (fresh p));
          s ← o_score o (fst (call_args_of impl X' y' o v)) (snd (call_args_of impl X' y' o v));
          Ok [(o_name o, s)])) /\
    fst (PipelineBase.feature_importances (fresh p)) = Raise (Exn KeyError (name e)).
Proof.
  intros H. destruct (init_Ok_inv E cls params p H)
    as (comps & pts & e & _ & _ & Hl & _ & _ & ->).
  apply last_Some in Hl as [ts ->]. exists ts, e.
  split; [reflexivity|]. split; [|split].
  - rewrite predict_run. cbn [fst]. unfold predictions, PipelineBase.predict.
    rewrite !bind_run. cbn [record fst snd self fresh]. rewrite bind_run. unfold lift at 1.
    destruct (PipelineBase.as_DataFrame E X) as [X0|e0]; [|reflexivity].
    rewrite bind_Ok, bind_run. unfold PipelineBase._transform. rewrite bind_run.
    cbn [get_self self component_graph]. rewrite removelast_last. unfold lift at 1.
    destruct (PipelineBase._transform_chain ts X0) as [X_t|e0]; [|reflexivity].
    rewrite bind_Ok, bind_run. unfold PipelineBase.self_estimator. rewrite bind_run.
    cbn [get_self self]. unfold estimator. cbn [component_graph].
    rewrite last_snoc. reflexivity.
  - intros impl y X' y' r o HX Hy Hr Hn.
    assert (Ho : mapM (get_objective E) [r] = Ok [o]).
    { rewrite mapM_cons, Hr. reflexivity. }
    rewrite (score_run E impl X y [r] X' y' [o] _ HX Hy Ho).
    cbn [scoring_loop]. rewrite Hn, bind_run, !predict_run. cbn [self fresh].
    destruct (predictions E _ X') as [v|e0]; cbn [fst]; [|reflexivity].
    rewrite bind_Ok, bind_run, call_score_run.
    destruct (o_score o _ _) as [s|e0]; reflexivity.
  - unfold PipelineBase.feature_importances, PipelineBase.self_estimator,
      estimator, fresh, mbind, M_bind, get_self, mret, M_ret, raise.
    cbn [self component_graph]. rewrite last_snoc.
    cbn [self input_feature_names]. rewrite lookup_empty. reflexivity.
Qed.

(** ** The theorems at work on the concrete setting *)

(** C2, counterexample: the pipeline [ScaledClassifier(parameters={})], on
    which [fit] has never been called, predicts and scores without any
    error, and its [feature_importances] raises a [KeyError]; none of the
    three fails with a not-fitted error. *)
Lemma unfitted_pipeline_predicts :
  PipelineBase.__init__ Stub.externals Stub.ScaledClassifier ∅ = Ok Stub.pipeline /\
  fst (PipelineBase.predict Stub.externals Stub.X (fresh Stub.pipeline))
    = Ok (Series [0%Q; 0%Q]) /\
  fst (PipelineBase.score Stub.externals Stub.X Stub.y [OObject Stub.Accuracy]
         (fresh Stub.pipeline))
    = Ok [("Accuracy", 1%Q)] /\
  fst (PipelineBase.feature_importances (fresh Stub.pipeline))
    = Raise (Exn KeyError "Classifier") /\
  ~ (exists e,
       fst (PipelineBase.predict Stub.externals Stub.X (fresh Stub.pipeline)) = Raise e /\
       issubclass (exn_cls e) NotFittedError = true).
Proof.
  split; [vm_compute; reflexivity|].
  split; [vm_compute; reflexivity|].
  split; [vm_compute; reflexivity|].
  split; [vm_compute; reflexivity|].
  intros (e & He & _). vm_compute in He. discriminate.
Qed.

(** C2 as amended, at work on the same pipeline. *)
Lemma unfitted_pipeline_is_not_checked_witness :
  PipelineBase.__init__ Stub.externals Stub.ScaledClassifier ∅ = Ok Stub.pipeline /\
  exists ts e,
    component_graph Stub.pipeline = ts ++ [e] /\
    fst (PipelineBase.predict Stub.externals Stub.X (fresh Stub.pipeline)) =
      (X' ← PipelineBase.as_DataFrame Stub.externals Stub.X;
       X_t ← PipelineBase._transform_chain ts X';
       cc_predict (component_class e) (attrs e) X_t) /\
    fst (PipelineBase.feature_importances (fresh Stub.pipeline))
      = Raise (Exn KeyError (name e)).
Proof.
  split; [vm_compute; reflexivity|].
  destruct (unfitted_pipeline_is_not_checked Stub.externals Stub.ScaledClassifier ∅
              Stub.pipeline Stub.X) as (ts & e & Hg & Hp & _ & Hf).
  - vm_compute; reflexivity.
  - exists ts, e. split; [exact Hg|]. split; [exact Hp | exact Hf].
Defined.

(** C1 at work: four objectives, one of them requested twice, two of
    them on hard predictions, one on probability estimates. *)
Lemma score_keys_and_prediction_reuse_witness :
  let refs := [OObject Stub.Accuracy; OObject Stub.LogLoss;
               OObject Stub.Lead; OObject Stub.Accuracy] in
  let objs := [Stub.Accuracy; Stub.LogLoss; Stub.Lead; Stub.Accuracy] in
  Forall (scorable Stub.externals (call_args_of BaseScore Stub.X Stub.y)
            (self (fresh Stub.pipeline)) Stub.X) objs /\
  exists scores cs,
    score_of Stub.externals BaseScore Stub.X Stub.y refs (fresh Stub.pipeline)
      = (Ok scores, extend (fresh Stub.pipeline) cs) /\
    od_keys scores = first_occurrences (map o_name objs) /\
    (forall n, n ∈ od_keys scores <-> n ∈ map o_name objs) /\
    (NoDup (map o_name objs) -> od_keys scores = map o_name objs) /\
    count is_predict cs <= 1 /\
    count is_predict_proba cs <= 1.
Proof.
  intros refs objs.
  assert (Hfit : Forall (scorable Stub.externals (call_args_of BaseScore Stub.X Stub.y)
                           (self (fresh Stub.pipeline)) Stub.X) objs).
  { repeat constructor.
    - exists (Series [0%Q; 0%Q]). split; [vm_compute; reflexivity|].
      eexists. vm_compute. reflexivity.
    - exists (NdArray [[1%Q; 0%Q]; [1%Q; 0%Q]]). split; [vm_compute; reflexivity|].
      eexists. vm_compute. reflexivity.
    - exists (Series [0%Q; 0%Q]). split; [vm_compute; reflexivity|].
      eexists. vm_compute. reflexivity.
    - exists (Series [0%Q; 0%Q]). split; [vm_compute; reflexivity|].
      eexists. vm_compute. reflexivity. }
  split; [exact Hfit|].
  apply (score_keys_and_prediction_reuse Stub.externals BaseScore Stub.X Stub.y
           Stub.X Stub.y refs objs (fresh Stub.pipeline)).
  - reflexivity.
  - reflexivity.
  - reflexivity.
  - exact Hfit.
Defined.

(** C4, counterexample: a class whose graph ends with the scaler and whose
    declared problem type is not one.  Every entry of the graph is
    instantiated and the last component is not an [Estimator], yet
    construction fails with the [KeyError] of resolving the problem type,
    which is done first, and not with the invalid-structure error. *)
Lemma unknown_problem_type_is_reported_first :
  mapM (fun r => PipelineBase._instantiate_component Stub.externals r ∅)
       (class_component_graph Stub.BackwardsUnknown) = Ok [Stub.classifier; Stub.scaler] /\
  isinstance_Estimator Stub.scaler = false /\
  PipelineBase.__init__ Stub.externals Stub.BackwardsUnknown ∅
    = Raise (Exn KeyError "nonsense") /\
  PipelineBase.__init__ Stub.externals Stub.BackwardsUnknown ∅
    <> Raise InvalidPipelineStructure.
Proof.
  split; [vm_compute; reflexivity|]. split; [reflexivity|].
  assert (H : PipelineBase.__init__ Stub.externals Stub.BackwardsUnknown ∅
              = Raise (Exn KeyError "nonsense")) by (vm_compute; reflexivity).
  split; [exact H|]. rewrite H. discriminate.
Qed.

(** C4 as amended, at work: a graph that ends with the scaler. *)
Lemma last_component_must_be_estimator_witness :
  mapM (fun r => PipelineBase._instantiate_component Stub.externals r ∅)
       (class_component_graph Stub.Backwards) = Ok [Stub.classifier; Stub.scaler] /\
  isinstance_Estimator Stub.scaler = false /\
  PipelineBase.__init__ Stub.externals Stub.Backwards ∅ = Raise InvalidPipelineStructure.
Proof.
  split; [vm_compute; reflexivity|]. split; [reflexivity|].
  exact (last_component_must_be_estimator Stub.externals Stub.Backwards ∅
           [Stub.classifier; Stub.scaler] Stub.scaler eq_refl eq_refl eq_refl).
Defined.


(** C7 at work: before any [fit] and after two. *)
Lemma describe_returns_parameters_witness :
  PipelineBase.__init__ Stub.externals Stub.ScaledClassifier ∅ = Ok Stub.pipeline /\
  fst (PipelineBase.describe Stub.externals true (fresh Stub.pipeline)) = Ok (Some ∅) /\
  fst (PipelineBase.describe Stub.externals true
         (after_fits Stub.externals [(Stub.X, Stub.y); (Stub.X, Stub.y)]
            (fresh Stub.pipeline))) = Ok (Some ∅).
Proof.
  split; [vm_compute; reflexivity|]. split.
  - apply (describe_returns_parameters Stub.externals Stub.ScaledClassifier ∅
             Stub.pipeline []).
    vm_compute; reflexivity.
  - apply (describe_returns_parameters Stub.externals Stub.ScaledClassifier ∅
             Stub.pipeline [(Stub.X, Stub.y); (Stub.X, Stub.y)]).
    vm_compute; reflexivity.
Defined.

(** C8 at work: the classifier refuses [n_estimators = 0]. *)
Lemma constructor_errors_wrapped_witness :
  let e := Exn ValueError "n_estimators must be positive" in
  cc_init Stub.Classifier (default ∅ (Stub.bad_parameters !! "Classifier")) = Raise e /\
  PipelineBase._instantiate_component Stub.externals (CName "Classifier") Stub.bad_parameters
    = Raise (ExnFrom ValueError
        "Error received when instantiating component Classifier with the following arguments n_estimators"
        e) /\
  PipelineBase.__init__ Stub.externals Stub.ScaledClassifier Stub.bad_parameters
    = Raise (ExnFrom ValueError
        "Error received when instantiating component Classifier with the following arguments n_estimators"
        e).
Proof.
  intros e. split; [vm_compute; reflexivity|].
  destruct (constructor_errors_wrapped Stub.externals (CName "Classifier")
              Stub.bad_parameters Stub.classifier e) as [Hwrap _].
  - vm_compute; reflexivity.
  - vm_compute; reflexivity.
  - destruct (Hwrap eq_refl) as (Hi & _ & _ & _ & _ & Hinit).
    split.
    + rewrite Hi. vm_compute. reflexivity.
    + rewrite (Hinit Stub.ScaledClassifier [CName "Scaler"] []).
      * vm_compute. reflexivity.
      * reflexivity.
      * eexists. vm_compute. reflexivity.
Defined.

(** C9 at work: the pipeline built from a scaler, an encoder and the
    classifier is named after the classifier, then the scaler, then the
    encoder. *)
Lemma name_of_constructed_pipeline_witness :
  PipelineBase.__init__ Stub.externals Stub.EncodedClassifier ∅
    = Ok Stub.encoded_pipeline /\
  pipeline_name Stub.encoded_pipeline = "Classifier w/ Scaler + Encoder" /\
  exists ts e,
    component_graph Stub.encoded_pipeline = ts ++ [e] /\
    isinstance_Estimator e = true /\
    pipeline_name Stub.encoded_pipeline = display_name ts e.
Proof.
  split; [vm_compute; reflexivity|]. split; [reflexivity|].
  apply (name_of_constructed_pipeline Stub.externals Stub.EncodedClassifier ∅
           Stub.encoded_pipeline).
  vm_compute; reflexivity.
Defined.

(** * Further properties *)

(** ** Plot data *)

Lemma plot_loop_shape E X y objs :
  forall yp ypp scores w,
    PipelineBase.get_plot_data_loop E X y objs yp ypp scores w =
    scoring_loop E (plot_call_args y) X objs yp ypp scores w.
Proof.
  induction objs as [|o rest IH]; intros yp ypp scores w; [reflexivity|].
  cbn [PipelineBase.get_plot_data_loop scoring_loop]. unfold plot_call_args.
  destruct (score_needs_proba o).
  - rewrite !bind_run.
    destruct (match ypp with None => PipelineBase.predict_proba E X | Some v => mret v end w)
      as [[v|e] w1]; [|reflexivity].
    cbn [mret M_ret fst snd]. rewrite !bind_run.
    destruct (PipelineBase.call_score o _ _ w1) as [[s|e] w2]; [apply IH|reflexivity].
  - rewrite !bind_run.
    destruct (match yp with None => PipelineBase.predict E X | Some v => mret v end w)
      as [[v|e] w1]; [|reflexivity].
    cbn [mret M_ret fst snd]. rewrite !bind_run.
    destruct (PipelineBase.call_score o _ _ w1) as [[s|e] w2]; [apply IH|reflexivity].
Qed.

Lemma get_plot_data_run E X y ms X' y' w :
  PipelineBase.as_DataFrame E X = Ok X' ->
  PipelineBase.as_Series E y = Ok y' ->
  PipelineBase.get_plot_data E X y ms w =
    scoring_loop E (plot_call_args y') X' ms None None [] w.
Proof.
  intros HX Hy. unfold PipelineBase.get_plot_data.
  rewrite bind_run. unfold lift at 1. rewrite HX.
  rewrite bind_run. unfold lift at 1. rewrite Hy.
  apply plot_loop_shape.
Qed.

Lemma keys_from_empty (names : list string) :
  fold_left (fun ks k => add_key k ks) names [] = first_occurrences names.
Proof.
  rewrite keys_in_order. cbn [app]. apply filter_all.
  intros n _. apply not_elem_of_nil.
Qed.

Lemma get_plot_data_facts (E : Externals) (X y : data)
    (ms : list Objective) (w : World) :
  exists cs,
    snd (PipelineBase.get_plot_data E X y ms w) = extend w cs /\
    count is_predict cs <= 1 /\
    count is_predict_proba cs <= 1 /\
    forall scores,
      fst (PipelineBase.get_plot_data E X y ms w) = Ok scores ->
      od_keys scores = first_occurrences (map o_name ms) /\
      exists X' y',
        PipelineBase.as_DataFrame E X = Ok X' /\
        PipelineBase.as_Series E y = Ok y' /\
        List.filter is_score cs =
          map (fun m => CallScore (o_name m)
                          [if score_needs_proba m
                           then from_Ok X' (probabilities E (self w) X')
                           else from_Ok X' (predictions E (self w) X');
                           y'] []) ms.
Proof.
  destruct (PipelineBase.as_DataFrame E X) as [X'|e] eqn:HX.
  2:{ exists []. unfold PipelineBase.get_plot_data. rewrite bind_run.
      unfold lift at 1. rewrite HX. cbn [fst snd]. rewrite extend_nil.
      split; [reflexivity|]. split; [cbn; lia|]. split; [cbn; lia|].
      intros scores [=]. }
  destruct (PipelineBase.as_Series E y) as [y'|e] eqn:Hy.
  2:{ exists []. unfold PipelineBase.get_plot_data. rewrite bind_run.
      unfold lift at 1. rewrite HX, bind_run. unfold lift at 1. rewrite Hy.
      cbn [fst snd]. rewrite extend_nil.
      split; [reflexivity|]. split; [cbn; lia|]. split; [cbn; lia|].
      intros scores [=]. }
  rewrite (get_plot_data_run E X y ms X' y' w HX Hy).
  destruct (scoring_loop_facts E (plot_call_args y') X' ms None None [] w)
    as (cs & Hs & Hp & Hpp & Hkeys & Hdisp & _).
  exists cs. split; [assumption|]. split; [assumption|]. split; [assumption|].
  intros scores Hok. split.
  - rewrite (Hkeys scores Hok). apply keys_from_empty.
  - exists X', y'. split; [reflexivity|]. split; [reflexivity|].
    apply (Hdisp (from_Ok X' (predictions E (self w) X'))
                 (from_Ok X' (probabilities E (self w) X'))).
    + discriminate.
    + intros u ->. reflexivity.
    + discriminate.
    + intros u ->. reflexivity.
    + now exists scores.
Qed.

Lemma scoring_loop_args_ext E ca1 ca2 X objs :
  Forall (fun o => forall v, ca1 o v = ca2 o v) objs ->
  forall yp ypp scores w,
    scoring_loop E ca1 X objs yp ypp scores w = scoring_loop E ca2 X objs yp ypp scores w.
Proof.
  induction 1 as [|o rest Ho _ IH]; intros yp ypp scores w; [reflexivity|].
  cbn [scoring_loop]. destruct (score_needs_proba o).
  - rewrite !bind_run.
    destruct (match ypp with None => PipelineBase.predict_proba E X | Some v => mret v end w)
      as [[v|e] w1]; [|reflexivity].
    rewrite !bind_run, (Ho v).
    destruct (PipelineBase.call_score o _ _ w1) as [[s|e] w2]; [apply IH|reflexivity].
  - rewrite !bind_run.
    destruct (match yp with None => PipelineBase.predict E X | Some v => mret v end w)
      as [[v|e] w1]; [|reflexivity].
    rewrite !bind_run, (Ho v).
    destruct (PipelineBase.call_score o _ _ w1) as [[s|e] w2]; [apply IH|reflexivity].
Qed.

(** X1.  [get_plot_data] leaves the pipeline as it was and calls
    [predict] at most once and [predict_proba] at most once, also when it
    raises.  When it returns, the keys of the mapping are the metrics'
    names in order, each at its first occurrence, and every metric has
    been scored once, in order, on the predictions of the kind it asks for
    and the ground truth, two positional arguments and no [X], whatever
    its [uses_extra_columns]. *)
Theorem get_plot_data_reuses_predictions (E : Externals) (X y : data)
    (ms : list Objective) (w : World) :
  exists cs,
    snd (PipelineBase.get_plot_data E X y ms w) = extend w cs /\
    count is_predict cs <= 1 /\
    count is_predict_proba cs <= 1 /\
    forall scores,
      fst (PipelineBase.get_plot_data E X y ms w) = Ok scores ->
      od_keys scores = first_occurrences (map o_name ms) /\
      exists X' y',
        PipelineBase.as_DataFrame E X = Ok X' /\
        PipelineBase.as_Series E y = Ok y' /\
        List.filter is_score cs =
          map (fun m => CallScore (o_name m)
                          [if score_needs_proba m
                           then from_Ok X' (probabilities E (self w) X')
                           else from_Ok X' (predictions E (self w) X');
                           y'] []) ms.
Proof. apply get_plot_data_facts. Qed.

(** X2.  For metrics that [get_objective] resolves to themselves and that
    do not use extra columns, [get_plot_data] on the metrics and [score] on
    the same objects are the same computation: same result, same calls,
    same final state. *)
Theorem get_plot_data_agrees_with_score (E : Externals) (X y : data)
    (ms : list Objective) (w : World) :
  Forall (fun m => get_objective E (OObject m) = Ok m /\ uses_extra_columns m = false) ms ->
  PipelineBase.get_plot_data E X y ms w = PipelineBase.score E X y (map OObject ms) w.
Proof.
  intros Hms.
  assert (Hres : mapM (get_objective E) (map OObject ms) = Ok ms).
  { induction Hms as [|m rest [Hm _] _ IH]; [reflexivity|].
    cbn [map]. rewrite mapM_cons, Hm, bind_Ok, IH. reflexivity. }
  unfold PipelineBase.get_plot_data, PipelineBase.score.
  rewrite !bind_run. unfold lift at 1 3.
  destruct (PipelineBase.as_DataFrame E X) as [X'|e]; [|reflexivity].
  rewrite !bind_run. unfold lift at 1 2.
  destruct (PipelineBase.as_Series E y) as [y'|e]; [|reflexivity].
  rewrite bind_run. unfold lift at 1. rewrite Hres.
  rewrite plot_loop_shape, base_loop_shape.
  apply scoring_loop_args_ext.
  eapply Forall_impl; [exact Hms|]. intros m [_ Hm] v.
  unfold plot_call_args, base_call_args. now rewrite Hm.
Qed.

Lemma once_cons_true f o l : f o = true -> once f (o :: l) = 1.
Proof. intros H. unfold once. cbn [existsb]. now rewrite H. Qed.

Lemma once_cons_false f o l : f o = false -> once f (o :: l) = once f l.
Proof. intros H. unfold once. cbn [existsb]. now rewrite H. Qed.

Lemma once_le f l : once f l <= 1.
Proof. unfold once. destruct (existsb f l); lia. Qed.

Lemma scoring_loop_lazy E ca X objs :
  forall yp ypp scores w,
  exists cs,
    snd (scoring_loop E ca X objs yp ypp scores w) = extend w cs /\
    count is_predict cs <= match yp with Some _ => 0 | None => once wants_predictions objs end /\
    count is_predict_proba cs
      <= match ypp with Some _ => 0 | None => once score_needs_proba objs end /\
    (is_Ok (fst (scoring_loop E ca X objs yp ypp scores w)) ->
     count is_predict cs = match yp with Some _ => 0 | None => once wants_predictions objs end /\
     count is_predict_proba cs
       = match ypp with Some _ => 0 | None => once score_needs_proba objs end).
Proof.
  induction objs as [|o rest IH]; intros yp ypp scores w.
  - exists []. cbn [scoring_loop]. unfold mret, M_ret. cbn [fst snd].
    rewrite extend_nil. unfold once. cbn.
    split; [reflexivity|]. destruct yp, ypp; repeat split; lia.
  - cbn [scoring_loop]. destruct (score_needs_proba o) eqn:Hn.
    + assert (Hw : wants_predictions o = false) by (unfold wants_predictions; now rewrite Hn).
      rewrite (once_cons_false _ _ _ Hw), (once_cons_true _ _ _ Hn).
      change (match ypp with None => PipelineBase.predict_proba E X | Some v => mret v end)
        with (fetch ypp (PipelineBase.predict_proba E X)).
      destruct (fetch_run ypp _ _ _ w (predict_proba_run E X w)) as (cs0 & Hf & Hcs0).
      rewrite bind_run, Hf.
      destruct (match ypp with Some v => Ok v | None => probabilities E (self w) X end)
        as [v|e].
      * rewrite bind_run, call_score_run, extend_extend.
        destruct (o_score o _ _) as [s|e].
        -- destruct (IH yp (Some v) (od_update (o_name o) s scores)
                        (extend w (cs0 ++ [CallScore (o_name o) (fst (ca o v)) (snd (ca o v))])))
             as (cs & Hsnd & Hp & Hpp & Heq).
           exists ((cs0 ++ [CallScore (o_name o) (fst (ca o v)) (snd (ca o v))]) ++ cs).
           rewrite Hsnd, extend_extend. split; [reflexivity|].
           rewrite !count_app. subst cs0.
           split; [|split].
           ++ destruct ypp; cbn in *; lia.
           ++ destruct ypp; cbn in *; lia.
           ++ intros Hok. destruct (Heq Hok) as [H1 H2].
              destruct ypp; cbn in *; lia.
        -- exists (cs0 ++ [CallScore (o_name o) (fst (ca o v)) (snd (ca o v))]).
           cbn [fst snd]. split; [reflexivity|].
           rewrite !count_app. subst cs0.
           split; [|split].
           ++ destruct ypp, yp; cbn; lia.
           ++ destruct ypp; cbn; lia.
           ++ intros [? [=]].
      * exists cs0. cbn [fst snd]. split; [reflexivity|]. subst cs0.
        split; [|split].
        -- destruct ypp, yp; cbn; lia.
        -- destruct ypp; cbn; lia.
        -- intros [? [=]].
    + assert (Hw : wants_predictions o = true) by (unfold wants_predictions; now rewrite Hn).
      rewrite (once_cons_true _ _ _ Hw), (once_cons_false _ _ _ Hn).
      change (match yp with None => PipelineBase.predict E X | Some v => mret v end)
        with (fetch yp (PipelineBase.predict E X)).
      destruct (fetch_run yp _ _ _ w (predict_run E X w)) as (cs0 & Hf & Hcs0).
      rewrite bind_run, Hf.
      destruct (match yp with Some v => Ok v | None => predictions E (self w) X end)
        as [v|e].
      * rewrite bind_run, call_score_run, extend_extend.
        destruct (o_score o _ _) as [s|e].
        -- destruct (IH (Some v) ypp (od_update (o_name o) s scores)
                        (extend w (cs0 ++ [CallScore (o_name o) (fst (ca o v)) (snd (ca o v))])))
             as (cs & Hsnd & Hp & Hpp & Heq).
           exists ((cs0 ++ [CallScore (o_name o) (fst (ca o v)) (snd (ca o v))]) ++ cs).
           rewrite Hsnd, extend_extend. split; [reflexivity|].
           rewrite !count_app. subst cs0.
           split; [|split].
           ++ destruct yp; cbn in *; lia.
           ++ destruct yp; cbn in *; lia.
           ++ intros Hok. destruct (Heq Hok) as [H1 H2].
              destruct yp; cbn in *; lia.
        -- exists (cs0 ++ [CallScore (o_name o) (fst (ca o v)) (snd (ca o v))]).
           cbn [fst snd]. split; [reflexivity|].
           rewrite !count_app. subst cs0.
           split; [|split].
           ++ destruct yp; cbn; lia.
           ++ destruct ypp, yp; cbn; lia.
           ++ intros [? [=]].
      * exists cs0. cbn [fst snd]. split; [reflexivity|]. subst cs0.
        split; [|split].
        -- destruct yp; cbn; lia.
        -- destruct ypp, yp; cbn; lia.
        -- intros [? [=]].
Qed.

(** X3.  [score] computes predictions on demand: [predict] is not called
    unless some objective works on hard predictions, [predict_proba] is not
    called unless some objective works on probability estimates, and when
    [score] returns each has been called exactly once if some objective
    needed it and not at all otherwise. *)
Theorem score_predicts_on_demand (E : Externals) (impl : score_impl)
    (X y X' y' : data) (refs : list objective_ref) (objs : list Objective) (w : World) :
  PipelineBase.as_DataFrame E X = Ok X' ->
  PipelineBase.as_Series E y = Ok y' ->
  mapM (get_objective E) refs = Ok objs ->
  exists cs,
    snd (score_of E impl X y refs w) = extend w cs /\
    count is_predict cs <= once wants_predictions objs /\
    count is_predict_proba cs <= once score_needs_proba objs /\
    (is_Ok (fst (score_of E impl X y refs w)) ->
     count is_predict cs = once wants_predictions objs /\
     count is_predict_proba cs = once score_needs_proba objs).
Proof.
  intros HX Hy Ho.
  rewrite (score_run E impl X y refs X' y' objs w HX Hy Ho).
  apply (scoring_loop_lazy E (call_args_of impl X' y') X' objs None None [] w).
Qed.


(** ** The values of the mapping *)

Lemma od_update_fresh {V} (k : string) (v : V) (d : list (string * V)) :
  k ∉ od_keys d -> od_update k v d = d ++ [(k, v)].
Proof.
  induction d as [|[k' v'] d IH]; intros Hk; [reflexivity|].
  cbn [od_keys map fst] in Hk. apply not_elem_of_cons in Hk as [Hne Hk].
  cbn [od_update]. destruct (decide (k = k')); [contradiction|].
  cbn [app]. now rewrite IH.
Qed.

Lemma scoring_loop_values E ca X objs :
  forall yp ypp scores w scores' preds proba,
    fst (scoring_loop E ca X objs yp ypp scores w) = Ok scores' ->
    NoDup (map o_name objs) ->
    (forall o, o ∈ objs -> o_name o ∉ od_keys scores) ->
    (forall u, yp = Some u -> u = preds) ->
    (forall u, predictions E (self w) X = Ok u -> u = preds) ->
    (forall u, ypp = Some u -> u = proba) ->
    (forall u, probabilities E (self w) X = Ok u -> u = proba) ->
    exists entries,
      scores' = scores ++ entries /\ Forall2 (scored ca preds proba) objs entries.
Proof.
  induction objs as [|o rest IH];
    intros yp ypp scores w scores' preds proba Hrun Hnd Hfresh H1 H2 H3 H4.
  - cbn in Hrun. injection Hrun as <-. exists []. split; [now rewrite app_nil_r|constructor].
  - cbn [map] in Hnd. apply NoDup_cons in Hnd as [Ho Hnd].
    assert (Hfresh' : forall s o', o' ∈ rest ->
                        o_name o' ∉ od_keys (od_update (o_name o) s scores)).
    { intros s o' Ho'. rewrite od_update_fresh by (apply Hfresh; left).
      unfold od_keys. rewrite map_app. cbn [map fst].
      apply not_elem_of_app. split; [apply Hfresh; now right|].
      apply not_elem_of_cons. split; [|apply not_elem_of_nil].
      intros Heq. apply Ho. rewrite <- Heq.
      apply list_elem_of_In, in_map, list_elem_of_In, Ho'. }
    cbn [scoring_loop] in Hrun. destruct (score_needs_proba o) eqn:Hn.
    + change (match ypp with None => PipelineBase.predict_proba E X | Some v => mret v end)
        with (fetch ypp (PipelineBase.predict_proba E X)) in Hrun.
      destruct (fetch_run ypp _ _ _ w (predict_proba_run E X w)) as (cs0 & Hf & _).
      rewrite bind_run, Hf in Hrun.
      destruct (match ypp with Some v => Ok v | None => probabilities E (self w) X end)
        as [v|e] eqn:Hv; [|discriminate].
      assert (v = proba) as ->.
      { destruct ypp as [u|]; [inversion Hv; subst; now apply H3 | now apply H4]. }
      rewrite bind_run, call_score_run in Hrun.
      destruct (o_score o _ _) as [s|e] eqn:Hs; [|discriminate].
      destruct (IH yp (Some proba) _ _ scores' preds proba Hrun Hnd (Hfresh' s))
        as (entries & -> & HF); try assumption.
      { intros u [= <-]. reflexivity. }
      exists ((o_name o, s) :: entries).
      rewrite od_update_fresh by (apply Hfresh; left). rewrite <- app_assoc.
      split; [reflexivity|]. constructor; [|assumption].
      unfold scored. rewrite Hn. split; [reflexivity | exact Hs].
    + change (match yp with None => PipelineBase.predict E X | Some v => mret v end)
        with (fetch yp (PipelineBase.predict E X)) in Hrun.
      destruct (fetch_run yp _ _ _ w (predict_run E X w)) as (cs0 & Hf & _).
      rewrite bind_run, Hf in Hrun.
      destruct (match yp with Some v => Ok v | None => predictions E (self w) X end)
        as [v|e] eqn:Hv; [|discriminate].
      assert (v = preds) as ->.
      { destruct yp as [u|]; [inversion Hv; subst; now apply H1 | now apply H2]. }
      rewrite bind_run, call_score_run in Hrun.
      destruct (o_score o _ _) as [s|e] eqn:Hs; [|discriminate].
      destruct (IH (Some preds) ypp _ _ scores' preds proba Hrun Hnd (Hfresh' s))
        as (entries & -> & HF); try assumption.
      { intros u [= <-]. reflexivity. }
      exists ((o_name o, s) :: entries).
      rewrite od_update_fresh by (apply Hfresh; left). rewrite <- app_assoc.
      split; [reflexivity|]. constructor; [|assumption].
      unfold scored. rewrite Hn. split; [reflexivity | exact Hs].
Qed.

(** X4.  When [score] returns for objectives with distinct names, the
    mapping has one entry per objective, in the order requested: the
    objective's name with the value its [score] returned on the
    predictions of the kind it asks for (with the arguments of the
    implementation at hand). *)
Theorem score_holds_each_objective_value (E : Externals) (impl : score_impl)
    (X y X' y' : data) (refs : list objective_ref) (objs : list Objective)
    (w : World) (scores : list (string * Q)) :
  PipelineBase.as_DataFrame E X = Ok X' ->
  PipelineBase.as_Series E y = Ok y' ->
  mapM (get_objective E) refs = Ok objs ->
  NoDup (map o_name objs) ->
  fst (score_of E impl X y refs w) = Ok scores ->
  Forall2 (scored (call_args_of impl X' y')
             (from_Ok X' (predictions E (self w) X'))
             (from_Ok X' (probabilities E (self w) X')))
          objs scores.
Proof.
  intros HX Hy Ho Hnd Hrun.
  rewrite (score_run E impl X y refs X' y' objs w HX Hy Ho) in Hrun.
  destruct (scoring_loop_values E _ X' objs None None [] w scores
              (from_Ok X' (predictions E (self w) X'))
              (from_Ok X' (probabilities E (self w) X')) Hrun Hnd)
    as (entries & -> & HF); try discriminate.
  - intros o _. apply not_elem_of_nil.
  - intros u ->. reflexivity.
  - intros u ->. reflexivity.
  - exact HF.
Qed.

(** ** Fitting *)

Lemma fit_frame_refl w : fit_frame w w.
Proof. repeat split. Qed.

Lemma fit_frame_trans a b c : fit_frame a b -> fit_frame b c -> fit_frame a c.
Proof.
  intros (H1 & H2 & H3 & H4 & H5 & H6 & H7 & H8) (K1 & K2 & K3 & K4 & K5 & K6 & K7 & K8).
  repeat split; congruence.
Qed.

Lemma keys_grow_refl w : keys_grow w w.
Proof. intros k H. exact H. Qed.

Lemma keys_grow_trans a b c : keys_grow a b -> keys_grow b c -> keys_grow a c.
Proof. intros H1 H2 k H. apply H2, H1, H. Qed.


Lemma fit_keeps_refl w : fit_keeps w w.
Proof. split; [apply fit_frame_refl | apply keys_grow_refl]. Qed.

Lemma fit_keeps_trans a b c : fit_keeps a b -> fit_keeps b c -> fit_keeps a c.
Proof.
  intros [H1 H2] [K1 K2].
  split; [eapply fit_frame_trans | eapply keys_grow_trans]; eassumption.
Qed.

Ltac fit_step :=
  first
    [ apply keeps_ret; [apply fit_keeps_refl]
    | apply keeps_lift; [apply fit_keeps_refl]
    | apply keeps_raise; [apply fit_keeps_refl]
    | apply keeps_get_self; [apply fit_keeps_refl]
    | apply keeps_bind; [apply fit_keeps_trans | | intros ?] ].

Lemma record_input_features_keeps E n d :
  keeps fit_keeps (PipelineBase.record_input_features E n d).
Proof.
  unfold PipelineBase.record_input_features.
  fit_step; [fit_step|]. destruct a as [columns rows].
  intros w. split; [repeat split|].
  intros k Hk. cbn. destruct (decide (n = k)) as [->|Hne].
  - rewrite lookup_insert_eq. eauto.
  - now rewrite lookup_insert_ne.
Qed.

Lemma component_at_keeps i : keeps fit_keeps (PipelineBase.component_at i).
Proof.
  unfold PipelineBase.component_at. fit_step; [fit_step|].
  destruct (component_graph a !! i); fit_step.
Qed.

Lemma component_at_run i w :
  PipelineBase.component_at i w =
    (match component_graph (self w) !! i with
     | Some c => Ok c
     | None => Raise (Exn IndexError "list index out of range")
     end, w).
Proof.
  unfold PipelineBase.component_at. rewrite bind_run. cbn [get_self].
  destruct (component_graph (self w) !! i); reflexivity.
Qed.

Lemma map_insert_same {A B} (f : A -> B) (l : list A) (i : nat) (x y : A) :
  l !! i = Some x -> f y = f x -> map f (<[i := y]> l) = map f l.
Proof.
  revert i. induction l as [|a l IH]; intros [|i] Hi Hf; cbn in *; try discriminate.
  - injection Hi as ->. now rewrite Hf.
  - f_equal. now apply IH.
Qed.

(** Writing back the component read at position [i] with new attributes
    changes neither the names nor the classes of the graph. *)
Lemma set_attrs_keeps i c st w :
  component_graph (self w) !! i = Some c ->
  fit_keeps w (snd (PipelineBase.set_attrs i c st w)).
Proof.
  intros Hi. split; [|intros k Hk; exact Hk].
  unfold PipelineBase.set_attrs, modify_self. cbn.
  repeat split.
  - now apply (map_insert_same name _ i c).
  - now apply (map_insert_same component_class _ i c).
Qed.

Lemma call_fit_transform_keeps i a b : keeps fit_keeps (PipelineBase.call_fit_transform i a b).
Proof.
  intros w. unfold PipelineBase.call_fit_transform.
  rewrite bind_run, component_at_run.
  destruct (component_graph (self w) !! i) as [c|] eqn:Hi; [|apply fit_keeps_refl].
  destruct (cc_fit_transform _ _ a b) as [r st].
  rewrite bind_run.
  pose proof (set_attrs_keeps i c st w Hi) as H.
  destruct (PipelineBase.set_attrs i c st w) as [[[]|e] w1] eqn:Hs; cbn [snd] in *;
    [|exact H].
  unfold lift. exact H.
Qed.

Lemma call_fit_keeps i a b : keeps fit_keeps (PipelineBase.call_fit i a b).
Proof.
  intros w. unfold PipelineBase.call_fit.
  rewrite bind_run, component_at_run.
  destruct (component_graph (self w) !! i) as [c|] eqn:Hi; [|apply fit_keeps_refl].
  destruct (cc_fit _ _ a b) as [r st].
  rewrite bind_run.
  pose proof (set_attrs_keeps i c st w Hi) as H.
  destruct (PipelineBase.set_attrs i c st w) as [[[]|e] w1] eqn:Hs; cbn [snd] in *;
    [|exact H].
  unfold lift. exact H.
Qed.

Lemma self_estimator_keeps : keeps fit_keeps PipelineBase.self_estimator.
Proof.
  unfold PipelineBase.self_estimator. fit_step; [fit_step|].
  destruct (estimator a); fit_step.
Qed.

Lemma fit_transformers_keeps E l a b :
  keeps fit_keeps (PipelineBase._fit_transformers E l a b).
Proof.
  revert a b. induction l as [|i l IH]; intros a b; cbn [PipelineBase._fit_transformers].
  - fit_step.
  - fit_step; [apply component_at_keeps|].
    fit_step; [apply record_input_features_keeps|].
    fit_step; [apply call_fit_transform_keeps | apply IH].
Qed.

Lemma _fit_keeps E X y : keeps fit_keeps (PipelineBase._fit E X y).
Proof.
  unfold PipelineBase._fit.
  fit_step; [fit_step|]. fit_step; [apply fit_transformers_keeps|].
  fit_step; [apply self_estimator_keeps|].
  fit_step; [apply record_input_features_keeps | apply call_fit_keeps].
Qed.

Lemma fit_keeps_all E X y : keeps fit_keeps (PipelineBase.fit E X y).
Proof.
  unfold PipelineBase.fit.
  fit_step; [fit_step|]. fit_step; [fit_step|]. apply _fit_keeps.
Qed.

Lemma after_fits_keeps E (fits : list (data * data)) (w : World) :
  fit_keeps w (after_fits E fits w).
Proof.
  revert w. induction fits as [|[X y] fits IH]; intros w.
  - apply fit_keeps_refl.
  - unfold after_fits in *. cbn [fold_left].
    apply (fit_keeps_trans _ (snd (PipelineBase.fit E X y w))); [apply fit_keeps_all | apply IH].
Qed.

(** X5.  Through any sequence of [fit] calls, successful or not, the
    pipeline keeps its parameters, name, problem types and results, the
    names and the classes of its components in graph order, the record of
    calls and the log; and a feature-name entry once recorded stays
    recorded.  Only the recorded feature names and the attributes of the
    components change. *)
Theorem fit_changes_only_fitted_state (E : Externals) (fits : list (data * data))
    (w : World) :
  fit_frame w (after_fits E fits w) /\ keys_grow w (after_fits E fits w).
Proof. apply after_fits_keeps. Qed.

Lemma record_input_features_run E n d w :
  PipelineBase.record_input_features E n d w =
    match pd_DataFrame E d with
    | Ok (columns, _) =>
        (Ok tt,
         {| self := with_input_feature_names
                      (<[n := columns]> (input_feature_names (self w))) (self w);
            calls := calls w; logged := logged w |})
    | Raise e => (Raise e, w)
    end.
Proof.
  unfold PipelineBase.record_input_features. rewrite bind_run. unfold lift.
  destruct (pd_DataFrame E d) as [[columns rows]|e]; reflexivity.
Qed.

Lemma map_lookup {A B} (f : A -> B) (l : list A) (i : nat) :
  map f l !! i = f <$> (l !! i).
Proof.
  revert i. induction l as [|a l IH]; intros [|i]; cbn; try reflexivity. apply IH.
Qed.

Lemma same_names_lookup (g g' : list Component) (i : nat) (c : Component) :
  map name g' = map name g -> g !! i = Some c ->
  exists c', g' !! i = Some c' /\ name c' = name c.
Proof.
  intros Hn Hi.
  assert (H : map name g' !! i = Some (name c)) by (rewrite Hn, map_lookup, Hi; reflexivity).
  rewrite map_lookup in H. destruct (g' !! i) as [c'|]; [|discriminate].
  exists c'. split; [reflexivity|]. now injection H.
Qed.

Lemma fit_transformers_record E positions :
  forall X_t y w r w',
    PipelineBase._fit_transformers E positions X_t y w = (Ok r, w') ->
    forall i c, i ∈ positions -> component_graph (self w) !! i = Some c ->
      is_Some (input_feature_names (self w') !! name c).
Proof.
  induction positions as [|i0 rest IH]; intros X_t y w r w' Hrun i c Hi Hc.
  - inversion Hi.
  - cbn [PipelineBase._fit_transformers] in Hrun.
    rewrite bind_run, component_at_run in Hrun.
    destruct (component_graph (self w) !! i0) as [c0|] eqn:Hc0; [|discriminate].
    rewrite bind_run, record_input_features_run in Hrun.
    destruct (pd_DataFrame E X_t) as [[columns rows]|e]; [|discriminate].
    set (w1 := {| self := with_input_feature_names _ (self w);
                  calls := calls w; logged := logged w |}) in Hrun.
    rewrite bind_run in Hrun.
    pose proof (call_fit_transform_keeps i0 X_t y w1) as [Hframe Hgrow].
    destruct (PipelineBase.call_fit_transform i0 X_t y w1) as [[X2|e] w2]; [|discriminate].
    cbn [snd] in Hframe, Hgrow.
    pose proof (fit_transformers_keeps E rest X2 y w2) as [_ Hgrow2].
    rewrite Hrun in Hgrow2. cbn [snd] in Hgrow2.
    apply elem_of_cons in Hi as [->|Hi].
    + apply Hgrow2, Hgrow. subst w1. cbn.
      rewrite Hc0 in Hc. injection Hc as ->. rewrite lookup_insert_eq. eauto.
    + destruct Hframe as (_ & _ & _ & _ & Hnames & _).
      destruct (same_names_lookup (component_graph (self w)) (component_graph (self w2)) i c)
        as (c2 & Hc2 & Hn2); [exact Hnames | exact Hc |].
      rewrite <- Hn2. exact (IH X2 y w2 r w' Hrun i c2 Hi Hc2).
Qed.

Lemma fit_records_names (E : Externals) (X y : data) (w w' : World) :
  PipelineBase.fit E X y w = (Ok tt, w') ->
  component_graph (self w) <> [] /\
  forall c, c ∈ component_graph (self w) ->
    is_Some (input_feature_names (self w') !! name c).
Proof.
  intros Hrun. unfold PipelineBase.fit in Hrun.
  rewrite bind_run in Hrun. unfold lift at 1 in Hrun.
  destruct (PipelineBase.as_DataFrame E X) as [X0|e]; [|discriminate].
  rewrite bind_run in Hrun. unfold lift at 1 in Hrun.
  destruct (PipelineBase.as_Series E y) as [y0|e]; [|discriminate].
  unfold PipelineBase._fit in Hrun. rewrite bind_run in Hrun. cbn [get_self] in Hrun.
  rewrite bind_run in Hrun.
  set (g := component_graph (self w)) in *.
  pose proof (fit_transformers_keeps E (seq 0 (length g - 1)) X0 y0 w) as [Hframe1 _].
  pose proof (fit_transformers_record E (seq 0 (length g - 1)) X0 y0 w) as Hrec.
  destruct (PipelineBase._fit_transformers E (seq 0 (length g - 1)) X0 y0 w)
    as [[X_t|e] w1]; [|discriminate].
  cbn [snd] in Hframe1. specialize (Hrec X_t w1 eq_refl).
  rewrite bind_run in Hrun. unfold PipelineBase.self_estimator in Hrun.
  rewrite bind_run in Hrun. cbn [get_self] in Hrun.
  destruct (estimator (self w1)) as [est|] eqn:Hest; [|discriminate].
  cbn [mret M_ret] in Hrun.
  rewrite bind_run, record_input_features_run in Hrun.
  destruct (pd_DataFrame E X_t) as [[columns rows]|e]; [|discriminate].
  set (w2 := {| self := with_input_feature_names _ (self w1);
                calls := calls w1; logged := logged w1 |}) in Hrun.
  pose proof (call_fit_keeps (length g - 1) X_t y0 w2) as [_ Hgrow3].
  rewrite Hrun in Hgrow3. cbn [snd] in Hgrow3.
  destruct Hframe1 as (_ & _ & _ & _ & Hnames & _). fold g in Hnames.
  assert (Hlen : length (component_graph (self w1)) = length g).
  { rewrite <- (length_map name), Hnames, length_map. reflexivity. }
  assert (Hne : g <> []).
  { intros Hnil. unfold estimator in Hest. rewrite Hnil in Hlen. cbn in Hlen.
    destruct (component_graph (self w1)); [discriminate Hest | discriminate Hlen]. }
  split; [exact Hne|].
  intros c Hc. apply list_elem_of_lookup in Hc as [j Hj].
  pose proof (lookup_lt_Some _ _ _ Hj) as Hlt.
  destruct (decide (j < length g - 1)) as [Hsmall|Hlast].
  - apply Hgrow3. subst w2. cbn.
    assert (Hk : is_Some (input_feature_names (self w1) !! name c)).
    { apply (Hrec j c); [|exact Hj]. apply elem_of_seq. lia. }
    destruct (decide (name est = name c)) as [->|Hd].
    + rewrite lookup_insert_eq. eauto.
    + now rewrite lookup_insert_ne.
  - assert (j = length g - 1) as -> by lia.
    destruct (same_names_lookup g (component_graph (self w1)) (length g - 1) c Hnames Hj)
      as (c1 & Hc1 & Hn1).
    unfold estimator in Hest. rewrite last_lookup, Hlen in Hest.
    replace (pred (length g)) with (length g - 1) in Hest by lia.
    rewrite Hc1 in Hest. injection Hest as <-.
    apply Hgrow3. subst w2. cbn. rewrite Hn1, lookup_insert_eq. eauto.
Qed.

(** X6.  A [fit] that returns can only have run on a pipeline with at
    least one component, and afterwards the input feature names of every
    component of the graph are recorded under its name. *)
Theorem fit_records_every_component (E : Externals) (X y : data) (w w' : World) :
  PipelineBase.fit E X y w = (Ok tt, w') ->
  component_graph (self w) <> [] /\
  forall c, c ∈ component_graph (self w) ->
    is_Some (input_feature_names (self w') !! name c).
Proof. apply fit_records_names. Qed.

(** ** Feature importances *)

Lemma feature_importances_run (w : World) :
  PipelineBase.feature_importances w =
    (match estimator (self w) with
     | None => Raise (Exn AttributeError "estimator")
     | Some est =>
         match input_feature_names (self w) !! name est with
         | None => Raise (Exn KeyError (name est))
         | Some feature_names =>
             match cc_feature_importances (component_class est) (attrs est) with
             | Ok importances =>
                 Ok (PipelineBase.sort_by_key (zip feature_names importances))
             | Raise e => Raise e
             end
         end
     end, w).
Proof.
  unfold PipelineBase.feature_importances, PipelineBase.self_estimator,
    mbind, M_bind, get_self, mret, M_ret, raise, lift.
  destruct (estimator (self w)) as [est|]; [|reflexivity].
  destruct (input_feature_names (self w) !! name est) as [names|]; [|reflexivity].
  destruct (cc_feature_importances _ _); reflexivity.
Qed.

(** X7.  After a [fit] that returned, [feature_importances] no longer
    raises [KeyError]: the estimator's feature names are recorded, and the
    result is the estimator's importances paired with them and sorted (or
    the exception the estimator raises when asked for its importances);
    the pipeline is left as it was. *)
Theorem feature_importances_after_fit (E : Externals) (X y : data) (w w' : World) :
  PipelineBase.fit E X y w = (Ok tt, w') ->
  exists est feature_names,
    estimator (self w') = Some est /\
    input_feature_names (self w') !! name est = Some feature_names /\
    PipelineBase.feature_importances w' =
      (importances ← cc_feature_importances (component_class est) (attrs est);
       Ok (PipelineBase.sort_by_key (zip feature_names importances)), w').
Proof.
  intros Hrun.
  destruct (fit_records_names E X y w w' Hrun) as [Hne Hkeys].
  pose proof (fit_keeps_all E X y w) as [Hframe _]. rewrite Hrun in Hframe.
  cbn [snd] in Hframe. destruct Hframe as (_ & _ & _ & _ & Hnames & _).
  destruct (proj2 (last_is_Some (component_graph (self w))) Hne) as [c Hc].
  assert (Hin : c ∈ component_graph (self w)).
  { apply last_Some in Hc as [l ->]. apply elem_of_app. right. left. }
  rewrite last_lookup in Hc.
  destruct (same_names_lookup _ (component_graph (self w')) _ c Hnames Hc)
    as (est & Hest & Hn).
  assert (Hlen : length (component_graph (self w')) = length (component_graph (self w))).
  { rewrite <- (length_map name), Hnames, length_map. reflexivity. }
  assert (Hlast : estimator (self w') = Some est).
  { unfold estimator. rewrite last_lookup, Hlen. exact Hest. }
  destruct (Hkeys c Hin) as [feature_names Hf]. rewrite <- Hn in Hf.
  exists est, feature_names. split; [exact Hlast|]. split; [exact Hf|].
  rewrite feature_importances_run, Hlast, Hf.
  destruct (cc_feature_importances _ _); reflexivity.
Qed.











(** The restriction to ordinary numbers is needed: unsigned importances 0,
    5 and 3 of 8 bits have the keys 0, 251 and 253, and their rows stay in
    the order they came in. *)
Lemma unsigned_keys_wrap_around :
  PipelineBase.sort_by_key
    [(LStr "a", UInt 8 0); (LStr "b", UInt 8 5); (LStr "c", UInt 8 3)]
  = [(LStr "a", UInt 8 0); (LStr "b", UInt 8 5); (LStr "c", UInt 8 3)].
Proof. reflexivity. Qed.


(** ** More on construction *)

Lemma mapM_ext_in {A B} (f g : A -> Result B) (l : list A) :
  (forall x, x ∈ l -> f x = g x) -> mapM f l = mapM g l.
Proof.
  induction l as [|a l IH]; intros H; [reflexivity|].
  rewrite !mapM_cons, (H a) by left.
  destruct (g a); [|reflexivity]. rewrite !bind_Ok, IH; [reflexivity|].
  intros x Hx. apply H. now right.
Qed.

(** X10.  An entry of [parameters] under a name that no component of the
    graph bears has no effect on construction: the same components are
    built or the same exception is raised, and only the stored
    [parameters] differ. *)
Theorem unknown_parameters_are_ignored (E : Externals) (cls : PipelineClass)
    (params : gmap string (gmap string pyval)) (k : string) (kw : gmap string pyval) :
  (forall r h, r ∈ class_component_graph cls -> handle_component E r = Ok h -> name h <> k) ->
  PipelineBase.__init__ E cls (<[k := kw]> params) =
    match PipelineBase.__init__ E cls params with
    | Ok p => Ok (with_parameters (<[k := kw]> params) p)
    | Raise e => Raise e
    end.
Proof.
  intros Hk.
  assert (Hinst : mapM (fun c => PipelineBase._instantiate_component E c (<[k := kw]> params))
                       (class_component_graph cls)
                  = mapM (fun c => PipelineBase._instantiate_component E c params)
                         (class_component_graph cls)).
  { apply mapM_ext_in. intros r Hr. unfold PipelineBase._instantiate_component.
    destruct (handle_component E r) as [h|e] eqn:Hh; [|reflexivity].
    rewrite !bind_Ok. rewrite lookup_insert_ne; [reflexivity|].
    intros Heq. exact (Hk r h Hr Hh (eq_sym Heq)). }
  unfold PipelineBase.__init__. rewrite Hinst. clear Hinst.
  destruct (mapM (fun c => PipelineBase._instantiate_component E c params)
                 (class_component_graph cls)) as [comps|e]; [|reflexivity].
  rewrite !bind_Ok.
  destruct (mapM (handle_problem_types E) _) as [pts|e]; [|reflexivity].
  rewrite !bind_Ok.
  destruct (list_getitem comps (-1)) as [c|e]; [|reflexivity].
  rewrite !bind_Ok.
  destruct (isinstance_Estimator c); [|reflexivity].
  destruct (PipelineBase._validate_problem_types E _ pts) as [[]|e]; reflexivity.
Qed.

(** X11.  A pipeline class with an empty component graph cannot be
    constructed: once its problem types have resolved, [__init__] raises
    [IndexError] on [component_graph[-1]], not the error it has for a
    graph without an estimator. *)
Theorem empty_graph_raises_IndexError (E : Externals) (cls : PipelineClass)
    (params : gmap string (gmap string pyval)) :
  class_component_graph cls = [] ->
  PipelineBase.__init__ E cls params =
    match mapM (handle_problem_types E) (class_problem_types cls) with
    | Ok _ => Raise (Exn IndexError "list index out of range")
    | Raise e => Raise e
    end.
Proof.
  intros Hg. unfold PipelineBase.__init__. rewrite Hg.
  destruct (mapM (handle_problem_types E) _); reflexivity.
Qed.

Lemma validate_first_unsupported E (valid pre post : list ProblemTypes) (t : ProblemTypes) :
  (forall u, u ∈ pre -> u ∈ valid) -> t ∉ valid ->
  PipelineBase._validate_problem_types E valid (pre ++ t :: post)
    = Raise (UnsupportedProblemType E t valid).
Proof.
  induction pre as [|u pre IH]; intros Hpre Ht; cbn [app PipelineBase._validate_problem_types].
  - rewrite bool_decide_eq_false_2 by assumption. reflexivity.
  - rewrite bool_decide_eq_true_2 by (apply Hpre; left).
    apply IH; [|assumption]. intros v Hv. apply Hpre. now right.
Qed.

(** X12.  The problem type named in the error for an unsupported type is
    the first one, in declaration order, that the estimator does not
    support. *)
Theorem first_unsupported_type_is_reported (E : Externals) (cls : PipelineClass)
    (params : gmap string (gmap string pyval)) (comps : list Component)
    (e : Component) (pre post : list ProblemTypes) (t : ProblemTypes) :
  mapM (fun r => PipelineBase._instantiate_component E r params)
       (class_component_graph cls) = Ok comps ->
  last comps = Some e ->
  isinstance_Estimator e = true ->
  mapM (handle_problem_types E) (class_problem_types cls) = Ok (pre ++ t :: post) ->
  (forall u, u ∈ pre -> u ∈ cc_problem_types (component_class e)) ->
  t ∉ cc_problem_types (component_class e) ->
  PipelineBase.__init__ E cls params =
    Raise (UnsupportedProblemType E t (cc_problem_types (component_class e))).
Proof.
  intros Hc Hl He Hp Hpre Ht.
  rewrite (init_after_comprehensions E cls params comps _ Hc Hp), Hl, He.
  now rewrite validate_first_unsupported.
Qed.

Lemma validate_Ok_inv E (valid pts : list ProblemTypes) :
  PipelineBase._validate_problem_types E valid pts = Ok tt ->
  forall t, t ∈ pts -> t ∈ valid.
Proof.
  induction pts as [|u pts IH]; intros H t Ht; [inversion Ht|].
  cbn [PipelineBase._validate_problem_types] in H.
  destruct (decide (u ∈ valid)) as [Hu|Hu].
  - rewrite bool_decide_eq_true_2 in H by assumption.
    apply elem_of_cons in Ht as [->|Ht]; [assumption | now apply IH].
  - rewrite bool_decide_eq_false_2 in H by assumption. discriminate.
Qed.

Lemma well_formed_frame (w w' : World) :
  fit_frame w w' -> well_formed (self w) -> well_formed (self w').
Proof.
  intros (_ & _ & Hpt & _ & Hnames & Hcls & _) (ts & e & Hg & He & Hsup).
  assert (Hlen : length (component_graph (self w')) = length (component_graph (self w))).
  { rewrite <- (length_map name), Hnames, length_map. reflexivity. }
  destruct (last (component_graph (self w'))) as [e'|] eqn:Hl.
  2:{ apply last_None in Hl. rewrite Hl, Hg, length_app in Hlen. cbn in Hlen. lia. }
  assert (Hce : component_class e' = component_class e).
  { assert (H : last (map component_class (component_graph (self w')))
                = Some (component_class e')).
    { rewrite last_lookup in Hl. rewrite last_lookup, length_map, map_lookup, Hl.
      reflexivity. }
    rewrite Hcls, Hg, map_app in H. cbn [map] in H. rewrite last_snoc in H.
    now injection H. }
  apply last_Some in Hl as [ts' Hts'].
  exists ts', e'. split; [assumption|]. split.
  - unfold isinstance_Estimator in *. now rewrite Hce.
  - rewrite Hpt, Hce. exact Hsup.
Qed.

(** X13.  A constructed pipeline has no feature names and no results
    recorded, and its graph ends with an [Estimator] that supports every
    problem type of the pipeline; after any sequence of [fit] calls the
    graph still ends with such an estimator, and the pipeline's name and
    the names of its components are what they were. *)
Theorem constructed_pipeline_stays_well_formed (E : Externals) (cls : PipelineClass)
    (params : gmap string (gmap string pyval)) (p : Pipeline)
    (fits : list (data * data)) :
  PipelineBase.__init__ E cls params = Ok p ->
  input_feature_names p = ∅ /\
  results p = ∅ /\
  well_formed p /\
  well_formed (self (after_fits E fits (fresh p))) /\
  pipeline_name (self (after_fits E fits (fresh p))) = pipeline_name p /\
  map name (component_graph (self (after_fits E fits (fresh p)))) = map name (component_graph p).
Proof.
  intros H. destruct (init_Ok_inv E cls params p H)
    as (comps & pts & e & _ & _ & Hl & He & Hv & Hp).
  assert (Hwf : well_formed p).
  { subst p. apply last_Some in Hl as [ts ->]. exists ts, e.
    split; [reflexivity|]. split; [assumption|]. exact (validate_Ok_inv E _ pts Hv). }
  split; [subst p; reflexivity|]. split; [subst p; reflexivity|]. split; [exact Hwf|].
  destruct (after_fits_keeps E fits (fresh p)) as [Hframe _].
  split; [exact (well_formed_frame _ _ Hframe Hwf)|].
  destruct Hframe as (_ & Hname & _ & _ & Hnames & _).
  split; [exact Hname | exact Hnames].
Qed.

Lemma mapM_Ok_Forall2 {A B} (f : A -> Result B) (l : list A) (ys : list B) :
  mapM f l = Ok ys -> Forall2 (fun x y => f x = Ok y) l ys.
Proof.
  revert ys. induction l as [|a l IH]; intros ys H.
  - injection H as <-. constructor.
  - rewrite mapM_cons in H. destruct (f a) as [b|e] eqn:Ha; [|discriminate].
    rewrite bind_Ok in H. destruct (mapM f l) as [k|e]; [|discriminate].
    injection H as <-. constructor; [assumption | now apply IH].
Qed.

(** X14.  The graph of a constructed pipeline follows the declared one
    entry by entry: each component is a new instance of the class of the
    component its entry resolves to, built from the keyword arguments
    found in [parameters] under that component's name (none when the name
    is absent); and the problem types are the declared ones, resolved, in
    order. *)
Theorem constructed_graph_mirrors_declaration (E : Externals) (cls : PipelineClass)
    (params : gmap string (gmap string pyval)) (p : Pipeline) :
  PipelineBase.__init__ E cls params = Ok p ->
  Forall2 (built_from E params) (class_component_graph cls) (component_graph p) /\
  Forall2 (fun r t => handle_problem_types E r = Ok t)
          (class_problem_types cls) (problem_types p).
Proof.
  intros H. destruct (init_Ok_inv E cls params p H)
    as (comps & pts & e & Hc & Hp & _ & _ & _ & ->).
  cbn [component_graph problem_types]. split; [|now apply mapM_Ok_Forall2].
  apply mapM_Ok_Forall2 in Hc. eapply Forall2_impl; [exact Hc|].
  intros r c Hi. unfold PipelineBase._instantiate_component in Hi.
  destruct (handle_component E r) as [h|ex] eqn:Hh; [|discriminate].
  rewrite bind_Ok in Hi.
  destruct (cc_init _ _) as [[n st]|ex] eqn:Hinit.
  - injection Hi as <-. exists h. split; [exact Hh|]. split; [reflexivity | exact Hinit].
  - destruct (_ || _); discriminate.
Qed.

(** X9.  [fit] is not atomic.  When the first transformer's
    [fit_transform] raises, [fit] raises that exception and leaves the
    pipeline changed: the transformer's input feature names are recorded
    and the transformer holds whatever attributes its failed
    [fit_transform] left, while the later components are untouched. *)
Theorem failed_fit_is_not_rolled_back (E : Externals) (X y X0 y0 : data) (w : World)
    (t : Component) (rest : list Component) (columns : list label)
    (rows : list (list Q)) (ex : exn) (st : cstate) :
  component_graph (self w) = t :: rest ->
  rest <> [] ->
  PipelineBase.as_DataFrame E X = Ok X0 ->
  PipelineBase.as_Series E y = Ok y0 ->
  pd_DataFrame E X0 = Ok (columns, rows) ->
  cc_fit_transform (component_class t) (attrs t) X0 y0 = (Raise ex, st) ->
  exists w',
    PipelineBase.fit E X y w = (Raise ex, w') /\
    component_graph (self w') =
      {| component_class := component_class t; name := name t; attrs := st |} :: rest /\
    input_feature_names (self w') = <[name t := columns]> (input_feature_names (self w)).
Proof.
  intros Hg Hrest HX Hy Hcols Hft.
  unfold PipelineBase.fit.
  rewrite bind_run. unfold lift at 1. rewrite HX.
  rewrite bind_run. unfold lift at 1. rewrite Hy.
  unfold PipelineBase._fit. rewrite bind_run. cbn [get_self]. rewrite bind_run, Hg.
  destruct rest as [|c rest]; [contradiction|].
  cbn [length Nat.sub seq PipelineBase._fit_transformers].
  rewrite bind_run, component_at_run, Hg. cbn [lookup list_lookup].
  rewrite bind_run, record_input_features_run, Hcols.
  rewrite bind_run. unfold PipelineBase.call_fit_transform.
  rewrite bind_run, component_at_run. cbn [self component_graph with_input_feature_names].
  rewrite Hg. cbn [lookup list_lookup]. rewrite Hft.
  eexists. split; [reflexivity|]. cbn. rewrite Hg. split; reflexivity.
Qed.

(** ** Indexing *)

Lemma getitem_int_run (i : Z) (w : World) :
  PipelineBase.__getitem__ (IInt i) w =
    (c ← list_getitem (component_graph (self w)) i; Ok (Some c), w).
Proof.
  unfold PipelineBase.__getitem__. rewrite bind_run. cbn [get_self].
  rewrite bind_run. unfold lift.
  destruct (list_getitem _ i); reflexivity.
Qed.

(** X15.  [pipeline[i]] for an integer [i] leaves everything as it was;
    it returns the component at position [i] when [0 <= i < n], the
    component at position [n + i] when [-n <= i < 0], and raises
    [IndexError] otherwise, [n] being the number of components; so
    [pipeline[-1]] is [self.estimator]. *)
Theorem indexing_by_position (i : Z) (w : World) :
  let g := component_graph (self w) in
  let n := Z.of_nat (length g) in
  snd (PipelineBase.__getitem__ (IInt i) w) = w /\
  ((0 <= i < n)%Z ->
     exists c, g !! Z.to_nat i = Some c /\
               fst (PipelineBase.__getitem__ (IInt i) w) = Ok (Some c)) /\
  ((- n <= i < 0)%Z ->
     exists c, g !! Z.to_nat (n + i) = Some c /\
               fst (PipelineBase.__getitem__ (IInt i) w) = Ok (Some c)) /\
  ((i < - n \/ n <= i)%Z ->
     fst (PipelineBase.__getitem__ (IInt i) w)
       = Raise (Exn IndexError "list index out of range")) /\
  (i = (-1)%Z ->
     fst (PipelineBase.__getitem__ (IInt i) w) =
       match estimator (self w) with
       | Some e => Ok (Some e)
       | None => Raise (Exn IndexError "list index out of range")
       end).
Proof.
  intros g n. rewrite getitem_int_run. cbn [fst snd]. fold g.
  split; [reflexivity|]. split; [|split; [|split]].
  - intros Hi. unfold list_getitem.
    destruct (Z.ltb_spec i 0) as [?|_]; [lia|].
    destruct (Z.ltb_spec i 0) as [?|_]; [lia|].
    destruct (g !! Z.to_nat i) as [c|] eqn:Hc.
    + exists c. split; reflexivity.
    + apply lookup_ge_None in Hc. lia.
  - intros Hi. unfold list_getitem.
    destruct (Z.ltb_spec i 0) as [_|?]; [|lia].
    destruct (Z.ltb_spec (i + Z.of_nat (length g)) 0) as [?|_]; [lia|].
    replace (i + Z.of_nat (length g))%Z with (n + i)%Z by (unfold n; lia).
    destruct (g !! Z.to_nat (n + i)) as [c|] eqn:Hc.
    + exists c. split; reflexivity.
    + apply lookup_ge_None in Hc. lia.
  - intros Hi. unfold list_getitem.
    destruct (Z.ltb_spec i 0) as [Hneg|Hpos].
    + destruct (Z.ltb_spec (i + Z.of_nat (length g)) 0) as [_|?]; [reflexivity|lia].
    + destruct (Z.ltb_spec i 0) as [?|_]; [lia|].
      destruct (g !! Z.to_nat i) as [c|] eqn:Hc; [|reflexivity].
      apply lookup_lt_Some in Hc. lia.
  - intros ->. rewrite list_getitem_last. unfold estimator. fold g.
    destruct (last g); reflexivity.
Qed.

Lemma find_by_name_NoDup (g : list Component) (i : nat) (c : Component) :
  NoDup (map name g) -> g !! i = Some c ->
  List.find (fun c' => bool_decide (name c' = name c)) g = Some c.
Proof.
  revert i. induction g as [|a g IH]; intros i Hnd Hi; [discriminate|].
  cbn [map] in Hnd. apply NoDup_cons in Hnd as [Ha Hnd].
  destruct i as [|i]; cbn in Hi.
  - injection Hi as ->. cbn [List.find]. now rewrite bool_decide_eq_true_2.
  - cbn [List.find]. rewrite bool_decide_eq_false_2; [now apply (IH i)|].
    intros Heq. apply Ha. rewrite Heq.
    apply list_elem_of_In, in_map, list_elem_of_In.
    eapply list_elem_of_lookup_2. exact Hi.
Qed.

(** X16.  When the components of the graph have distinct names, looking
    up by name the component found at a position gives that component
    back: if [pipeline[i]] is [c] then [pipeline[c.name]] is [c]. *)
Theorem lookup_by_name_of_indexed_component (i : Z) (c : Component) (w : World) :
  NoDup (map name (component_graph (self w))) ->
  fst (PipelineBase.__getitem__ (IInt i) w) = Ok (Some c) ->
  PipelineBase.__getitem__ (IName (name c)) w = (Ok (Some c), w).
Proof.
  intros Hnd Hi. rewrite getitem_int_run in Hi. cbn [fst] in Hi.
  assert (Hex : exists j, component_graph (self w) !! j = Some c).
  { unfold list_getitem in Hi.
    destruct (_ <? 0)%Z; [discriminate|].
    destruct (component_graph (self w) !! _) as [c'|] eqn:Hc; [|discriminate].
    injection Hi as <-. eauto. }
  destruct Hex as [j Hj].
  cbn [PipelineBase.__getitem__]. unfold PipelineBase.get_component.
  rewrite bind_run. cbn [get_self]. unfold mret, M_ret.
  now rewrite (find_by_name_NoDup _ j c Hnd Hj).
Qed.

(** ** The transform chain *)

Lemma transform_chain_app (a b : list Component) (X : data) :
  PipelineBase._transform_chain (a ++ b) X =
    (X1 ← PipelineBase._transform_chain a X; PipelineBase._transform_chain b X1).
Proof.
  revert X. induction a as [|t a IH]; intros X; [reflexivity|].
  cbn [app PipelineBase._transform_chain].
  destruct (cc_transform _ _ X) as [X1|e]; [|reflexivity].
  rewrite !bind_Ok. apply IH.
Qed.

Lemma predictions_unfold E (p : Pipeline) (X : data) (ts : list Component) (e : Component) :
  component_graph p = ts ++ [e] ->
  predictions E p X =
    (X' ← PipelineBase.as_DataFrame E X;
     X_t ← PipelineBase._transform_chain ts X';
     cc_predict (component_class e) (attrs e) X_t) /\
  probabilities E p X =
    (X' ← PipelineBase.as_DataFrame E X;
     X_t ← PipelineBase._transform_chain ts X';
     cc_predict_proba (component_class e) (attrs e) X_t).
Proof.
  intros Hg.
  unfold predictions, probabilities, PipelineBase.predict, PipelineBase.predict_proba,
    PipelineBase._transform, PipelineBase.self_estimator, estimator, fresh,
    mbind, M_bind, get_self, mret, M_ret, raise, lift, record.
  cbn [self fst snd]. rewrite Hg, removelast_last, last_snoc.
  split.
  - destruct (PipelineBase.as_DataFrame E X) as [X'|ex]; [|reflexivity].
    cbn [Result_bind]. destruct (PipelineBase._transform_chain ts X'); reflexivity.
  - destruct (PipelineBase.as_DataFrame E X) as [X'|ex]; [|reflexivity].
    cbn [Result_bind]. destruct (PipelineBase._transform_chain ts X'); reflexivity.
Qed.

(** X17.  When a transformer's [transform] raises on what the
    transformers before it produced, [predict] and [predict_proba] raise
    that exception unchanged; nothing but the call itself is recorded. *)
Theorem failing_transformer_stops_prediction (E : Externals) (X X0 X1 : data) (w : World)
    (pre post : list Component) (t e : Component) (ex : exn) :
  component_graph (self w) = pre ++ t :: post ++ [e] ->
  PipelineBase.as_DataFrame E X = Ok X0 ->
  PipelineBase._transform_chain pre X0 = Ok X1 ->
  cc_transform (component_class t) (attrs t) X1 = Raise ex ->
  PipelineBase.predict E X w = (Raise ex, extend w [CallPredict X]) /\
  PipelineBase.predict_proba E X w = (Raise ex, extend w [CallPredictProba X]).
Proof.
  intros Hg HX Hpre Ht.
  assert (Hg' : component_graph (self w) = (pre ++ t :: post) ++ [e])
    by (rewrite Hg, <- app_assoc; reflexivity).
  destruct (predictions_unfold E (self w) X _ e Hg') as [Hp Hpp].
  assert (Hchain : PipelineBase._transform_chain (pre ++ t :: post) X0 = Raise ex).
  { rewrite transform_chain_app, Hpre, bind_Ok.
    cbn [PipelineBase._transform_chain]. now rewrite Ht. }
  rewrite predict_run, predict_proba_run, Hp, Hpp, HX, !bind_Ok, Hchain.
  split; reflexivity.
Qed.

(** ** Describing *)

Lemma log_grows_refl w : log_grows w w.
Proof. repeat split. exists []. now rewrite app_nil_r. Qed.

Lemma log_grows_trans a b c : log_grows a b -> log_grows b c -> log_grows a c.
Proof.
  intros (H1 & H2 & l1 & H3) (K1 & K2 & l2 & K3).
  split; [congruence|]. split; [congruence|].
  exists (l1 ++ l2). rewrite K3, H3. now rewrite app_assoc.
Qed.

Lemma logger_grows (e : log_entry) : keeps log_grows (logger e).
Proof. intros w. cbn. repeat split. now exists [e]. Qed.

Ltac log_step :=
  first
    [ apply keeps_ret; [apply log_grows_refl]
    | apply keeps_lift; [apply log_grows_refl]
    | apply keeps_raise; [apply log_grows_refl]
    | apply keeps_get_self; [apply log_grows_refl]
    | apply logger_grows
    | apply keeps_bind; [apply log_grows_trans | | intros ?] ].

Lemma log_lines_grow (lines : list string) :
  keeps log_grows (mapM (fun line => logger (Log line)) lines).
Proof.
  induction lines as [|l lines IH]; cbn [mapM]; [log_step|].
  log_step; [log_step|]. log_step; [apply IH | log_step].
Qed.

Lemma describe_steps_grow (steps : list (nat * Component)) :
  keeps log_grows (PipelineBase.describe_steps steps).
Proof.
  induction steps as [|[number component] steps IH]; cbn [PipelineBase.describe_steps];
    [log_step|].
  log_step; [log_step|]. log_step; [apply log_lines_grow | apply IH].
Qed.

Lemma self_estimator_grows : keeps log_grows PipelineBase.self_estimator.
Proof.
  unfold PipelineBase.self_estimator. log_step; [log_step|].
  destruct (estimator a); log_step.
Qed.

Lemma describe_tail_grows E (return_dict : bool) (p : Pipeline) :
  keeps log_grows
    (logger (Log ("Problem Types: " +:+
                  String.concat ", " (map (format_problem_type E) (problem_types p))));;
     mt ← PipelineBase.model_type;
     logger (Log ("Model Type: " +:+ mt));;
     est ← PipelineBase.self_estimator;
     match input_feature_names p !! name est with
     | Some features => logger (Log ("Number of features: " +:+ pretty (length features)))
     | None => mret tt
     end;;
     logger (LogSubtitle "Pipeline Steps");;
     PipelineBase.describe_steps (enumerate 1 (component_graph p));;
     if return_dict then mret (Some (parameters p)) else mret None).
Proof.
  log_step; [log_step|].
  log_step. { unfold PipelineBase.model_type. log_step; [apply self_estimator_grows|log_step]. }
  log_step; [log_step|].
  log_step; [apply self_estimator_grows|].
  log_step.
  { match goal with
    | |- context [input_feature_names p !! ?k] => destruct (input_feature_names p !! k)
    end; log_step. }
  log_step; [log_step|].
  log_step; [apply describe_steps_grow|].
  destruct return_dict; log_step.
Qed.

Lemma describe_facts (E : Externals) (return_dict : bool) (w : World) :
  self (snd (PipelineBase.describe E return_dict w)) = self w /\
  calls (snd (PipelineBase.describe E return_dict w)) = calls w /\
  (exists entries,
     logged (snd (PipelineBase.describe E return_dict w)) =
       logged w ++ LogTitle (pipeline_name (self w)) :: entries) /\
  (well_formed (self w) ->
     fst (PipelineBase.describe E return_dict w) =
       Ok (if return_dict then Some (parameters (self w)) else None)).
Proof.
  assert (Hrun : PipelineBase.describe E return_dict w =
                 (logger (Log ("Problem Types: " +:+
                    String.concat ", "
                      (map (format_problem_type E) (problem_types (self w)))));;
                  mt ← PipelineBase.model_type;
                  logger (Log ("Model Type: " +:+ mt));;
                  est ← PipelineBase.self_estimator;
                  match input_feature_names (self w) !! name est with
                  | Some features =>
                      logger (Log ("Number of features: " +:+ pretty (length features)))
                  | None => mret tt
                  end;;
                  logger (LogSubtitle "Pipeline Steps");;
                  PipelineBase.describe_steps (enumerate 1 (component_graph (self w)));;
                  if return_dict then mret (Some (parameters (self w))) else mret None)
                   {| self := self w; calls := calls w;
                      logged := logged w ++ [LogTitle (pipeline_name (self w))] |}).
  { reflexivity. }
  pose proof (describe_tail_grows E return_dict (self w)
                {| self := self w; calls := calls w;
                   logged := logged w ++ [LogTitle (pipeline_name (self w))] |})
    as (Hs & Hc & l & Hl).
  rewrite <- Hrun in Hs, Hc, Hl. cbn [self calls logged] in Hs, Hc, Hl.
  split; [exact Hs|]. split; [exact Hc|]. split.
  - exists l. rewrite Hl, <- app_assoc. reflexivity.
  - intros (ts & e & Hg & _). 
    destruct (describe_run E return_dict w e) as (w' & Hr & _).
    { unfold estimator. rewrite Hg. apply last_snoc. }
    now rewrite Hr.
Qed.

(** X18.  [describe] changes neither the pipeline nor the record of
    calls; it only appends to the log, starting with the title that
    carries the pipeline's name; and on a pipeline whose graph ends with an
    estimator it never raises: it returns the parameters when
    [return_dict] is true and [None] otherwise. *)
Theorem describe_only_logs (E : Externals) (return_dict : bool) (w : World) :
  self (snd (PipelineBase.describe E return_dict w)) = self w /\
  calls (snd (PipelineBase.describe E return_dict w)) = calls w /\
  (exists entries,
     logged (snd (PipelineBase.describe E return_dict w)) =
       logged w ++ LogTitle (pipeline_name (self w)) :: entries) /\
  (well_formed (self w) ->
     fst (PipelineBase.describe E return_dict w) =
       Ok (if return_dict then Some (parameters (self w)) else None)).
Proof. apply describe_facts. Qed.

(** ** Methods that only read the pipeline *)

(** X19.  Of the public methods only [fit] changes the pipeline:
    [predict], [predict_proba], both [score]s, [get_plot_data],
    [describe], [feature_importances], [get_component], [pipeline[i]] and
    the refused [pipeline[i] = c] all leave it as it was, whether they
    return or raise. *)
Theorem reading_methods_keep_the_pipeline (E : Externals) (impl : score_impl)
    (X y : data) (refs : list objective_ref) (ms : list Objective)
    (n : string) (i : index) (c : Component) (b : bool) (w : World) :
  same_pipeline w (snd (PipelineBase.predict E X w)) /\
  same_pipeline w (snd (PipelineBase.predict_proba E X w)) /\
  same_pipeline w (snd (score_of E impl X y refs w)) /\
  same_pipeline w (snd (PipelineBase.get_plot_data E X y ms w)) /\
  same_pipeline w (snd (PipelineBase.describe E b w)) /\
  same_pipeline w (snd (PipelineBase.feature_importances w)) /\
  same_pipeline w (snd (PipelineBase.get_component n w)) /\
  same_pipeline w (snd (PipelineBase.__getitem__ i w)) /\
  same_pipeline w (snd (PipelineBase.__setitem__ i c w)).
Proof.
  unfold same_pipeline.
  split; [now rewrite predict_run|]. split; [now rewrite predict_proba_run|].
  split. { destruct (score_calls_bounded E impl X y refs w) as (cs & -> & _). reflexivity. }
  split. { destruct (get_plot_data_facts E X y ms w) as (cs & -> & _).
           reflexivity. }
  split; [apply describe_facts|].
  split; [now rewrite feature_importances_run|].
  split; [reflexivity|]. split; [|reflexivity].
  destruct i as [|z|s]; [reflexivity| |reflexivity].
  now rewrite getitem_int_run.
Qed.

(** ** The further properties at work on the concrete setting *)

Ltac distinct_names :=
  cbn [map o_name name component_graph self fresh];
  repeat (apply NoDup_cons; split;
          [ let H := fresh in
            intros H; repeat (apply elem_of_cons in H as [H|H]; [discriminate|]);
            inversion H
          | ]);
  apply NoDup_nil_2.

(** X2 at work: two metrics on the pipeline of the concrete setting. *)
Lemma get_plot_data_agrees_with_score_witness :
  PipelineBase.get_plot_data Stub.externals Stub.X Stub.y
    [Stub.Accuracy; Stub.LogLoss] (fresh Stub.pipeline)
  = PipelineBase.score Stub.externals Stub.X Stub.y
      [OObject Stub.Accuracy; OObject Stub.LogLoss] (fresh Stub.pipeline).
Proof.
  apply (get_plot_data_agrees_with_score Stub.externals Stub.X Stub.y
           [Stub.Accuracy; Stub.LogLoss] (fresh Stub.pipeline)).
  repeat constructor.
Defined.

(** X3 at work: an objective on probability estimates alone never makes
    [predict] run. *)
Lemma score_predicts_on_demand_witness :
  exists cs,
    snd (PipelineBase.score Stub.externals Stub.X Stub.y [OObject Stub.LogLoss]
           (fresh Stub.pipeline)) = extend (fresh Stub.pipeline) cs /\
    count is_predict cs = 0 /\
    count is_predict_proba cs = 1.
Proof.
  destruct (score_predicts_on_demand Stub.externals BaseScore Stub.X Stub.y Stub.X Stub.y
              [OObject Stub.LogLoss] [Stub.LogLoss] (fresh Stub.pipeline)
              eq_refl eq_refl eq_refl) as (cs & Hs & _ & _ & Heq).
  exists cs. split; [exact Hs|]. apply Heq. eexists. vm_compute. reflexivity.
Defined.

(** X4 at work. *)
Lemma score_holds_each_objective_value_witness :
  Forall2 (scored (call_args_of BaseScore Stub.X Stub.y)
             (from_Ok Stub.X (predictions Stub.externals Stub.pipeline Stub.X))
             (from_Ok Stub.X (probabilities Stub.externals Stub.pipeline Stub.X)))
          [Stub.Accuracy; Stub.LogLoss]
          [("Accuracy", 1%Q); ("Log Loss", 0%Q)].
Proof.
  apply (score_holds_each_objective_value Stub.externals BaseScore Stub.X Stub.y
           Stub.X Stub.y [OObject Stub.Accuracy; OObject Stub.LogLoss]
           [Stub.Accuracy; Stub.LogLoss] (fresh Stub.pipeline)).
  - reflexivity.
  - reflexivity.
  - reflexivity.
  - distinct_names.
  - vm_compute. reflexivity.
Defined.

(** X6 at work: one [fit] of the pipeline of the concrete setting. *)
Lemma fit_records_every_component_witness :
  let w' := snd (PipelineBase.fit Stub.externals Stub.X Stub.y (fresh Stub.pipeline)) in
  PipelineBase.fit Stub.externals Stub.X Stub.y (fresh Stub.pipeline) = (Ok tt, w') /\
  forall c, c ∈ [Stub.scaler; Stub.classifier] ->
    is_Some (input_feature_names (self w') !! name c).
Proof.
  intros w'.
  assert (Hrun : PipelineBase.fit Stub.externals Stub.X Stub.y (fresh Stub.pipeline)
                 = (Ok tt, w')) by (vm_compute; reflexivity).
  split; [exact Hrun|].
  apply (fit_records_every_component Stub.externals Stub.X Stub.y
           (fresh Stub.pipeline) w' Hrun).
Defined.

(** X7 and X8 at work: the ranking pipeline, fitted on a frame of four
    columns; the two importances of magnitude 1/5 keep their order. *)
Lemma feature_importances_after_fit_witness :
  let w' := snd (PipelineBase.fit Stub.externals Stub.X4 Stub.y1
                   (fresh Stub.ranking_pipeline)) in
  fst (PipelineBase.feature_importances w')
    = Ok [(LStr "b", Num (- (7 # 10))); (LStr "a", Num (1 # 5));
          (LStr "c", Num (1 # 5)); (LStr "d", Num 0)] /\
  exists est feature_names,
    estimator (self w') = Some est /\
    input_feature_names (self w') !! name est = Some feature_names /\
    PipelineBase.feature_importances w' =
      (importances ← cc_feature_importances (component_class est) (attrs est);
       Ok (PipelineBase.sort_by_key (zip feature_names importances)), w').
Proof.
  intros w'. split; [vm_compute; reflexivity|].
  apply (feature_importances_after_fit Stub.externals Stub.X4 Stub.y1
           (fresh Stub.ranking_pipeline) w').
  vm_compute; reflexivity.
Defined.


(** X9 at work: the failing transformer in first position. *)
Lemma failed_fit_is_not_rolled_back_witness :
  exists w',
    PipelineBase.fit Stub.externals Stub.X Stub.y (fresh Stub.faulty_first_pipeline)
      = (Raise (Exn ValueError "cannot fit"), w') /\
    component_graph (self w') =
      [{| component_class := Stub.Faulty; name := "Faulty"; attrs := [PBool false] |};
       Stub.classifier] /\
    input_feature_names (self w') = <["Faulty" := [LStr "a"; LStr "b"]]> ∅.
Proof.
  apply (failed_fit_is_not_rolled_back Stub.externals Stub.X Stub.y Stub.X Stub.y
           (fresh Stub.faulty_first_pipeline) Stub.faulty [Stub.classifier]
           [LStr "a"; LStr "b"] [[1%Q; 2%Q]; [3%Q; 4%Q]]
           (Exn ValueError "cannot fit") [PBool false]).
  - reflexivity.
  - discriminate.
  - reflexivity.
  - reflexivity.
  - reflexivity.
  - reflexivity.
Defined.

(** X10 at work: parameters for an imputer the pipeline does not have. *)
Lemma unknown_parameters_are_ignored_witness :
  PipelineBase.__init__ Stub.externals Stub.ScaledClassifier (<["Imputer" := ∅]> ∅)
    = Ok (with_parameters (<["Imputer" := ∅]> ∅) Stub.pipeline).
Proof.
  rewrite (unknown_parameters_are_ignored Stub.externals Stub.ScaledClassifier ∅
             "Imputer" ∅).
  - vm_compute. reflexivity.
  - intros r h Hr Hh.
    repeat (apply elem_of_cons in Hr as [->|Hr];
            [vm_compute in Hh; injection Hh as <-; discriminate|]).
    inversion Hr.
Defined.

(** X11 at work. *)
Lemma empty_graph_raises_IndexError_witness :
  PipelineBase.__init__ Stub.externals Stub.Hollow ∅
    = Raise (Exn IndexError "list index out of range").
Proof.
  rewrite (empty_graph_raises_IndexError Stub.externals Stub.Hollow ∅ eq_refl).
  vm_compute. reflexivity.
Defined.

(** X12 at work: [regression] is reported, [binary] before it is
    supported. *)
Lemma first_unsupported_type_is_reported_witness :
  PipelineBase.__init__ Stub.externals Stub.ScaledRegressor ∅
    = Raise (UnsupportedProblemType Stub.externals REGRESSION [BINARY; MULTICLASS]).
Proof.
  apply (first_unsupported_type_is_reported Stub.externals Stub.ScaledRegressor ∅
           [Stub.scaler; Stub.classifier] Stub.classifier [BINARY] [] REGRESSION).
  - vm_compute; reflexivity.
  - reflexivity.
  - reflexivity.
  - vm_compute; reflexivity.
  - intros u Hu. apply list_elem_of_singleton in Hu as ->. left.
  - intros H. repeat (apply elem_of_cons in H as [H|H]; [discriminate|]). inversion H.
Defined.

(** X13 at work: the pipeline of the concrete setting, fitted once. *)
Lemma constructed_pipeline_stays_well_formed_witness :
  well_formed Stub.pipeline /\
  well_formed (self (after_fits Stub.externals [(Stub.X, Stub.y)] (fresh Stub.pipeline))).
Proof.
  destruct (constructed_pipeline_stays_well_formed Stub.externals Stub.ScaledClassifier ∅
              Stub.pipeline [(Stub.X, Stub.y)]) as (_ & _ & H1 & H2 & _).
  - vm_compute; reflexivity.
  - split; assumption.
Defined.

(** X14 at work. *)
Lemma constructed_graph_mirrors_declaration_witness :
  Forall2 (built_from Stub.externals ∅)
          [CName "Scaler"; CObject Stub.encoder; CName "Classifier"]
          [Stub.scaler; Stub.encoder; Stub.classifier].
Proof.
  apply (constructed_graph_mirrors_declaration Stub.externals Stub.EncodedClassifier ∅
           Stub.encoded_pipeline).
  vm_compute; reflexivity.
Defined.

(** X16 at work: the encoder, at position 1 of its pipeline. *)
Lemma lookup_by_name_of_indexed_component_witness :
  PipelineBase.__getitem__ (IInt 1) (fresh Stub.encoded_pipeline)
    = (Ok (Some Stub.encoder), fresh Stub.encoded_pipeline) /\
  PipelineBase.__getitem__ (IName "Encoder") (fresh Stub.encoded_pipeline)
    = (Ok (Some Stub.encoder), fresh Stub.encoded_pipeline).
Proof.
  split; [reflexivity|].
  apply (lookup_by_name_of_indexed_component 1 Stub.encoder (fresh Stub.encoded_pipeline)).
  - distinct_names.
  - reflexivity.
Defined.

(** X17 at work: the failing transformer behind the scaler. *)
Lemma failing_transformer_stops_prediction_witness :
  PipelineBase.predict Stub.externals Stub.X (fresh Stub.faulty_pipeline)
    = (Raise (Exn ValueError "cannot transform"),
       extend (fresh Stub.faulty_pipeline) [CallPredict Stub.X]) /\
  PipelineBase.predict_proba Stub.externals Stub.X (fresh Stub.faulty_pipeline)
    = (Raise (Exn ValueError "cannot transform"),
       extend (fresh Stub.faulty_pipeline) [CallPredictProba Stub.X]).
Proof.
  apply (failing_transformer_stops_prediction Stub.externals Stub.X Stub.X Stub.X
           (fresh Stub.faulty_pipeline) [Stub.scaler] [] Stub.faulty Stub.classifier
           (Exn ValueError "cannot transform")); reflexivity.
Defined.
